(** * Backup & Restore Dashboard (server.js, public/script.js)

    A shallow embedding of the Express server that drives PostgreSQL
    backups to IBM Cloud Object Storage, and the properties of its
    operations: backup, restore, delete, disaster recovery, the audit
    log and its dashboard view, and the scheduled trigger.

    Modelling conventions
    - A handler run is a computation over a [World] (audit log, progress
      channel, temp directory, clock) that either returns or throws;
      [try { ... } catch (error) { ... }] is [tryCatch].
    - What the collaborators answer (the exit status of pg_dump, psql
      and createdb, the object store's replies, the chunks a stream
      delivers, how the file stream ends, whether unlinkSync throws) is
      an input of the run: a record of outcomes, one field per call
      site. The command lines themselves are not built.
    - JS numbers are exact rationals ([Q]) where the code divides, and
      integers elsewhere; [toFixed(2)] rounds the exact value.
    - A run is sequential: the interleaving of two concurrent runs is
      not modelled. The promise of a download settles on the file
      stream's 'finish' or 'error', the two events the code listens to.
    - The callback of the mail transport runs after the handler that
      escalated; it is a computation of its own ([mailCallback]).
    - Left out: GET /download and the log filter of the page. *)

From Stdlib Require Import ZArith QArith Qround Lqa Lia List Bool Ascii String.
From stdpp Require Import gmap strings list fin_maps pretty.

Import ListNotations.
Local Open Scope string_scope.
Local Open Scope Z_scope.

(** ** Dates and [Date.prototype.toISOString] *)

Module JSDate.

(** The UTC fields of a [Date] object, as [toISOString] reads them. *)
Record Date := mkDate {
  year : Z;          (* getUTCFullYear *)
  month : Z;         (* 1..12, i.e. getUTCMonth() + 1 *)
  day : Z;           (* getUTCDate, 1..31 *)
  hours : Z;         (* 0..23 *)
  minutes : Z;       (* 0..59 *)
  seconds : Z;       (* 0..59 *)
  milliseconds : Z   (* 0..999 *)
}.

(** The range of a valid ECMAScript time value is about
    -271821-04-20 .. +275760-09-13. *)
Definition valid (d : Date) : Prop :=
  -271821 <= year d <= 275760 /\
  1 <= month d <= 12 /\ 1 <= day d <= 31 /\
  0 <= hours d <= 23 /\ 0 <= minutes d <= 59 /\ 0 <= seconds d <= 59 /\
  0 <= milliseconds d <= 999.

(** Two dates fall in the same wall-clock second. *)
Definition sameSecond (a b : Date) : Prop :=
  year a = year b /\ month a = month b /\ day a = day b /\
  hours a = hours b /\ minutes a = minutes b /\ seconds a = seconds b.

(** Decimal digit [0..9] as a character. *)
Definition digit (z : Z) : ascii := ascii_of_nat (48 + Z.to_nat (z mod 10)).

Definition pad2 (z : Z) : string :=
  String (digit (z / 10)) (String (digit z) EmptyString).
Definition pad3 (z : Z) : string := String (digit (z / 100)) (pad2 z).
Definition pad4 (z : Z) : string := String (digit (z / 1000)) (pad3 z).
Definition pad6 (z : Z) : string :=
  String (digit (z / 100000)) (String (digit (z / 10000)) (pad4 z)).

(** Years 0..9999 print with four digits, all others as the expanded
    year: a sign and six digits. *)
Definition isoYear (y : Z) : string :=
  if (0 <=? y) && (y <=? 9999) then pad4 y
  else if y <? 0 then String "-" (pad6 (- y))
  else String "+" (pad6 y).

(** YYYY-MM-DDTHH:mm:ss.sssZ *)
Definition toISOString (d : Date) : string :=
  isoYear (year d) ++ "-" ++ pad2 (month d) ++ "-" ++ pad2 (day d) ++ "T" ++
  pad2 (hours d) ++ ":" ++ pad2 (minutes d) ++ ":" ++ pad2 (seconds d) ++ "." ++
  pad3 (milliseconds d) ++ "Z".

End JSDate.

(** [s.replace(/:/g, '-')] *)
Fixpoint replaceColons (s : string) : string :=
  match s with
  | EmptyString => EmptyString
  | String c s' =>
      String (if Ascii.eqb c ":" then "-"%char else c) (replaceColons s')
  end.

(** server.js 103-104: the artifact identifier of a backup started at [d]. *)
Definition backupFilename (d : JSDate.Date) : string :=
  let timestamp := replaceColons (JSDate.toISOString d) in
  "backup-" ++ timestamp ++ ".sql".

(** ** JS numbers in the progress computation *)

(** The value of [bytes / fileSize] and what is computed from it: a
    finite value, or [NaN] (0/0) or [Infinity] (n/0, n > 0). Byte counts
    are never negative, so no negative infinity arises. *)
Inductive JSNumber :=
| Finite (q : Q)
| NaN
| Infinity.

Definition ofN (n : N) : Q := inject_Z (Z.of_N n).

Definition jsDiv (a b : N) : JSNumber :=
  if (b =? 0)%N then (if (a =? 0)%N then NaN else Infinity)
  else Finite (ofN a / ofN b)%Q.

(** Multiplication and addition with a positive constant. *)
Definition jsMul (x : JSNumber) (k : Q) : JSNumber :=
  match x with Finite q => Finite (q * k)%Q | NaN => NaN | Infinity => Infinity end.
Definition jsAdd (x : JSNumber) (c : Q) : JSNumber :=
  match x with Finite q => Finite (q + c)%Q | NaN => NaN | Infinity => Infinity end.

(** The [percentage] field of a progress event. The handlers emit number
    literals; the per-chunk handlers emit what [toFixed(2)] returns, a
    string: [Fixed2 h] is the decimal string of [h / 100] with exactly
    two fraction digits ([Fixed2 2286] is "22.86"), and the strings
    "NaN" and "Infinity" for the values that are not finite. *)
Inductive Percentage :=
| Num (n : Z)
| Fixed2 (hundredths : Z)
| StrNaN
| StrInfinity.

(** [Number.prototype.toFixed(2)] on a non-negative value: the integer
    [n] with [n / 100] closest to [x], the larger one on a tie. *)
Definition toFixed2 (x : JSNumber) : Percentage :=
  match x with
  | Finite q => Fixed2 (Qfloor (q * 100 + (1 # 2))%Q)
  | NaN => StrNaN
  | Infinity => StrInfinity
  end.

Definition isString (p : Percentage) : bool :=
  match p with Num _ => false | _ => true end.

(** The numeric value a percentage denotes, when it denotes one. *)
Definition pctValue (p : Percentage) : option Q :=
  match p with
  | Num n => Some (inject_Z n)
  | Fixed2 h => Some (inject_Z h / 100)%Q
  | StrNaN | StrInfinity => None
  end.

(** server.js 124, 177, 264: the three per-chunk computations. *)
Definition uploadPercentage (uploadedBytes fileSize : N) : Percentage :=
  toFixed2 (jsAdd (jsMul (jsDiv uploadedBytes fileSize) 90) 10).
Definition restorePercentage (downloadedBytes fileSize : N) : Percentage :=
  toFixed2 (jsMul (jsDiv downloadedBytes fileSize) 80).
Definition recoveryPercentage (downloadedBytes fileSize : N) : Percentage :=
  toFixed2 (jsAdd (jsMul (jsDiv downloadedBytes fileSize) 70) 10).

Record ProgressEvent := mkEvent {
  message : string;
  percentage : Percentage
}.

(** public/script.js 9: the observer treats an event as terminal when
    [data.percentage === 100 || data.percentage === -1]; strict equality
    with a number never holds for a string. *)
Definition isTerminal (p : Percentage) : bool :=
  match p with
  | Num n => (n =? 100) || (n =? -1)
  | _ => false
  end.

(** Numeric order of two percentages. *)
Definition pctLe (a b : Percentage) : Prop :=
  match pctValue a, pctValue b with
  | Some x, Some y => (x <= y)%Q
  | _, _ => False
  end.

(** A list of percentages is non-decreasing. *)
Fixpoint nonDecreasing (l : list Percentage) : Prop :=
  match l with
  | [] => True
  | a :: l' => match l' with [] => True | b :: _ => pctLe a b end /\ nonDecreasing l'
  end.

(** ** The world a handler runs in *)

(** One call of [log(message, notify)] (server.js 23-29). *)
Record AuditEntry := mkEntry {
  entryTime : JSDate.Date;
  entryMessage : string;
  entryNotify : bool
}.

(** [`[${timestamp}] ${message}`] *)
Definition logMessage (e : AuditEntry) : string :=
  "[" ++ JSDate.toISOString (entryTime e) ++ "] " ++ entryMessage e.

Record World := mkWorld {
  wallClock : nat -> JSDate.Date; (* what the n-th [new Date()] reads *)
  epochClock : nat -> Z;          (* what [Date.now()] reads at that moment *)
  clockReads : nat;               (* how often the clock has been read *)
  auditLog : list AuditEntry;     (* the calls of [log], oldest first *)
  channel : list ProgressEvent;   (* the events emitted on 'progress', oldest first *)
  tempDir : gmap string N         (* the files under temp/, with their size *)
}.

(** The file logs/backup.log after appending [line + '\n'] for each line. *)
Fixpoint appendLines (lines : list string) : string :=
  match lines with
  | [] => EmptyString
  | l :: rest => l ++ String "010" (appendLines rest)
  end.

Definition logFileContent (w : World) : string :=
  appendLines (map logMessage (auditLog w)).

(** The messages handed to [sendEmailNotification]. *)
Definition notifierInbox (w : World) : list string :=
  map logMessage (List.filter entryNotify (auditLog w)).

(** ** Computations that return or throw *)

Definition Error := string.   (* error.message *)

Inductive Completion (A : Type) :=
| Normal (a : A)
| Throw (e : Error).
Arguments Normal {A} a.
Arguments Throw {A} e.

Definition Run (A : Type) := World -> Completion A * World.

Definition ret {A} (a : A) : Run A := fun w => (Normal a, w).
Definition throw {A} (e : Error) : Run A := fun w => (Throw e, w).
Definition bind {A B} (m : Run A) (k : A -> Run B) : Run B :=
  fun w => match m w with
           | (Normal a, w') => k a w'
           | (Throw e, w') => (Throw e, w')
           end.
Definition tryCatch {A} (body : Run A) (handler : Error -> Run A) : Run A :=
  fun w => match body w with
           | (Normal a, w') => (Normal a, w')
           | (Throw e, w') => handler e w'
           end.

Notation "x <- m ;; k" := (bind m (fun x => k))
  (at level 100, m at next level, right associativity).
Notation "m ;; k" := (bind m (fun _ => k))
  (at level 100, right associativity).

(** A promise that has settled. *)
Inductive Outcome (A : Type) :=
| Resolved (a : A)
| Rejected (e : Error).
Arguments Resolved {A} a.
Arguments Rejected {A} e.

Definition await {A} (o : Outcome A) : Run A :=
  match o with Resolved a => ret a | Rejected e => throw e end.

Definition newDate : Run JSDate.Date :=
  fun w => (Normal (wallClock w (clockReads w)),
            mkWorld (wallClock w) (epochClock w) (S (clockReads w))
                    (auditLog w) (channel w) (tempDir w)).
Definition dateNow : Run Z :=
  fun w => (Normal (epochClock w (clockReads w)),
            mkWorld (wallClock w) (epochClock w) (S (clockReads w))
                    (auditLog w) (channel w) (tempDir w)).

(** [fs.appendFileSync(logFile, ...)] and [sendEmailNotification]: the
    call is recorded with its flag. *)
Definition appendEntry (e : AuditEntry) : Run unit :=
  fun w => (Normal tt,
            mkWorld (wallClock w) (epochClock w) (clockReads w)
                    (auditLog w ++ [e]) (channel w) (tempDir w)).

(** server.js 23-29 *)
Definition log (msg : string) (notify : bool) : Run unit :=
  timestamp <- newDate ;;
  appendEntry (mkEntry timestamp msg notify).

(** The socket.io server, the only progress observer the handlers use. *)
Inductive Socket := io.

Definition emit (msg : string) (p : Percentage) : Run unit :=
  fun w => (Normal tt,
            mkWorld (wallClock w) (epochClock w) (clockReads w) (auditLog w)
                    (channel w ++ [mkEvent msg p]) (tempDir w)).

(** [if (socket) socket.emit('progress', {message, percentage})] *)
Definition emitIf (socket : option Socket) (msg : string) (p : Percentage) : Run unit :=
  match socket with Some _ => emit msg p | None => ret tt end.

(** [path.join(__dirname, 'temp', filename)], for a [filename] without
    separators or dot segments; paths are relative to [__dirname]. *)
Definition tempPath (filename : string) : string := "temp/" ++ filename.

Definition setTempDir (d : gmap string N) : Run unit :=
  fun w => (Normal tt,
            mkWorld (wallClock w) (epochClock w) (clockReads w)
                    (auditLog w) (channel w) d).

Definition writeFile (path : string) (size : N) : Run unit :=
  fun w => setTempDir (<[path := size]> (tempDir w)) w.

(** [fs.statSync(path).size]; throws when there is no such file. *)
Definition statSync (path : string) : Run N :=
  fun w => match tempDir w !! path with
           | Some size => (Normal size, w)
           | None => (Throw "ENOENT: no such file or directory", w)
           end.

(** [fs.unlinkSync(path)]; throws when there is no such file, or with
    the error [fault] the file system reports (EPERM, EBUSY, ...). *)
Definition unlinkSync (fault : option Error) (path : string) : Run unit :=
  fun w => match fault with
           | Some e => (Throw e, w)
           | None =>
               match tempDir w !! path with
               | Some _ => setTempDir (delete path (tempDir w)) w
               | None => (Throw "ENOENT: no such file or directory", w)
               end
           end.

(** What an external command that writes [-f filepath] left behind. *)
Inductive DumpResult :=
| Dumped (size : N)                              (* exit code 0 *)
| DumpFailed (e : Error) (partial : option N).   (* non-zero exit *)

Definition execDump (r : DumpResult) (filepath : string) : Run unit :=
  match r with
  | Dumped size => writeFile filepath size
  | DumpFailed e None => throw e
  | DumpFailed e (Some size) => writeFile filepath size ;; throw e
  end.

(** How a write stream piped from the object stream ends. *)
Inductive StreamEnd :=
| Finish                                          (* 'finish' *)
| StreamError (e : Error) (partial : option N).   (* 'error' *)

(** The 'data' handlers: fold over the chunk lengths, threading the
    running byte count. *)
Fixpoint forEachChunk (chunks : list N) (bytes : N)
    (onData : N -> N -> Run N) : Run N :=
  match chunks with
  | [] => ret bytes
  | chunk :: rest => bytes' <- onData bytes chunk ;; forEachChunk rest bytes' onData
  end.

(** ** The handlers *)

Inductive Response :=
| Redirect (location : string)                       (* res.redirect *)
| StatusSend (status : Z) (body : string)            (* res.status(s).send(body) *)
| Render (view : string) (backups logs : list string) (autoBackupSchedule : string).

(** *** Backup (server.js 100-147) *)

Record BackupEnv := mkBackupEnv {
  pgDump : DumpResult;            (* pg_dump ... -f filepath *)
  uploadChunks : list N;          (* chunk.length of each 'data' event of the file stream *)
  cosUpload : Outcome unit;       (* cos.upload(...).promise() *)
  backupUnlinkFault : option Error
}.

(** The 'data' handler of the file stream (server.js 122-126). *)
Definition onUploadData (socket : option Socket) (fileSize : N) : N -> N -> Run N :=
  fun uploadedBytes chunk =>
    let uploadedBytes := (uploadedBytes + chunk)%N in
    let percentage := uploadPercentage uploadedBytes fileSize in
    emitIf socket "Uploading..." percentage ;;
    ret uploadedBytes.

Definition backupTry (socket : option Socket) (env : BackupEnv) : Run bool :=
  d <- newDate ;;
  let filename := backupFilename d in
  let filepath := tempPath filename in
  log ("Starting backup process: " ++ filename) false ;;
  emitIf socket "Starting backup..." (Num 0) ;;
  execDump (pgDump env) filepath ;;
  log ("Backup file created: " ++ filepath ++ ", uploading to IBM COS...") false ;;
  emitIf socket "Uploading backup..." (Num 10) ;;
  fileSize <- statSync filepath ;;
  forEachChunk (uploadChunks env) 0%N (onUploadData socket fileSize) ;;
  await (cosUpload env) ;;
  log ("Backup uploaded: " ++ filename) false ;;
  emitIf socket "Backup completed" (Num 100) ;;
  unlinkSync (backupUnlinkFault env) filepath ;;
  log ("Temporary file deleted: " ++ filepath) false ;;
  ret true.

Definition backupCatch (socket : option Socket) (error : Error) : Run bool :=
  log ("Backup failed: " ++ error) true ;;
  emitIf socket "Backup failed" (Num (-1)) ;;
  ret false.

Definition performBackup (socket : option Socket) (env : BackupEnv) : Run bool :=
  tryCatch (backupTry socket env) (backupCatch socket).

(** POST /backup *)
Definition postBackup (env : BackupEnv) : Run Response :=
  performBackup (Some io) env ;;
  ret (Redirect "/").

(** *** Auto-backup scheduling (server.js 149-157) *)

(** The callback handed to [cron.schedule]. *)
Definition autoBackupTick (env : BackupEnv) : Run unit :=
  log "Running scheduled auto-backup..." false ;;
  performBackup None env ;;
  log "Auto-backup completed" false.

(** JS truthiness of an environment variable: set and not empty. *)
Definition truthy (v : option string) : bool :=
  match v with
  | Some EmptyString | None => false
  | Some _ => true
  end.

(** The cron jobs registered at startup: expression and callback. *)
Definition scheduleAutoBackup (AUTO_BACKUP_SCHEDULE : option string)
    : Run (list (string * (BackupEnv -> Run unit))) :=
  match AUTO_BACKUP_SCHEDULE with
  | Some expr =>
      if truthy AUTO_BACKUP_SCHEDULE then
        log ("Auto-backup scheduled with cron expression: " ++ expr) false ;;
        ret [(expr, autoBackupTick)]
      else ret []
  | None => ret []
  end.

(** *** Restore (server.js 159-207) *)

Record RestoreEnv := mkRestoreEnv {
  headObject : Outcome N;          (* metadata.ContentLength *)
  downloadChunks : list N;         (* chunk.length of each 'data' event of the object stream *)
  writeEnd : StreamEnd;            (* 'finish' or 'error' of the file stream *)
  psql : Outcome unit;             (* psql ... -f filepath *)
  restoreUnlinkFault : option Error
}.

(** [objectStream.pipe(fileStream)] and the promise on the file stream:
    the chunks arrive, then the file stream finishes or fails. *)
Definition pipeToFile (filepath : string) (chunks : list N)
    (onData : N -> N -> Run N) (e : StreamEnd) : Run unit :=
  written <- forEachChunk chunks 0%N onData ;;
  match e with
  | Finish => writeFile filepath written
  | StreamError err None => throw err
  | StreamError err (Some size) => writeFile filepath size ;; throw err
  end.

(** The 'data' handler of the object stream (server.js 175-179). *)
Definition onRestoreData (fileSize : N) : N -> N -> Run N :=
  fun downloadedBytes chunk =>
    let downloadedBytes := (downloadedBytes + chunk)%N in
    let percentage := restorePercentage downloadedBytes fileSize in
    emit "Downloading..." percentage ;;
    ret downloadedBytes.

Definition restoreTry (filename : string) (env : RestoreEnv) : Run Response :=
  let filepath := tempPath filename in
  log ("Starting restore process: " ++ filename) false ;;
  emit "Starting restore..." (Num 0) ;;
  fileSize <- await (headObject env) ;;
  pipeToFile filepath (downloadChunks env) (onRestoreData fileSize) (writeEnd env) ;;
  log ("Backup file downloaded: " ++ filename ++ ", restoring database...") false ;;
  emit "Restoring database..." (Num 80) ;;
  await (psql env) ;;
  log ("Database restored successfully from: " ++ filename) true ;;
  emit "Restore completed" (Num 100) ;;
  unlinkSync (restoreUnlinkFault env) filepath ;;
  log ("Temporary file deleted: " ++ filepath) false ;;
  ret (Redirect "/").

Definition restoreCatch (error : Error) : Run Response :=
  log ("Restore failed: " ++ error) true ;;
  emit "Restore failed" (Num (-1)) ;;
  ret (StatusSend 500 "Restore failed").

Definition postRestore (filename : string) (env : RestoreEnv) : Run Response :=
  tryCatch (restoreTry filename env) restoreCatch.

(** *** Delete (server.js 209-221) *)

Definition deleteTry (filename : string) (deleteObject : Outcome unit) : Run Response :=
  log ("Deleting backup: " ++ filename) false ;;
  await deleteObject ;;
  log ("Backup deleted successfully: " ++ filename) true ;;
  ret (Redirect "/").

Definition deleteCatch (error : Error) : Run Response :=
  log ("Delete failed: " ++ error) true ;;
  ret (StatusSend 500 "Delete failed").

Definition postDelete (filename : string) (deleteObject : Outcome unit) : Run Response :=
  tryCatch (deleteTry filename deleteObject) deleteCatch.

(** *** Disaster recovery (server.js 238-294) *)

Record RecoveryEnv := mkRecoveryEnv {
  createdb : Outcome unit;          (* createdb ... tempDbName *)
  recHeadObject : Outcome N;
  recDownloadChunks : list N;
  recWriteEnd : StreamEnd;
  recPsql : Outcome unit;           (* psql ... -d tempDbName -f filepath *)
  recUnlinkFault : option Error
}.

(** The 'data' handler of the object stream (server.js 262-266). *)
Definition onRecoveryData (fileSize : N) : N -> N -> Run N :=
  fun downloadedBytes chunk =>
    let downloadedBytes := (downloadedBytes + chunk)%N in
    let percentage := recoveryPercentage downloadedBytes fileSize in
    emit "Downloading backup..." percentage ;;
    ret downloadedBytes.

Definition recoveryTry (filename : string) (env : RecoveryEnv) : Run Response :=
  now <- dateNow ;;
  let tempDbName := "recovery_" ++ pretty now in
  let filepath := tempPath filename in
  log ("Starting disaster recovery with temporary database: " ++ tempDbName) false ;;
  emit "Starting disaster recovery..." (Num 0) ;;
  await (createdb env) ;;
  log ("Temporary database created: " ++ tempDbName) false ;;
  emit "Temporary database created..." (Num 10) ;;
  fileSize <- await (recHeadObject env) ;;
  pipeToFile filepath (recDownloadChunks env) (onRecoveryData fileSize) (recWriteEnd env) ;;
  log ("Backup downloaded: " ++ filename) false ;;
  emit "Restoring to temporary database..." (Num 80) ;;
  await (recPsql env) ;;
  log ("Temporary database restored: " ++ tempDbName) true ;;
  emit "Disaster recovery completed" (Num 100) ;;
  unlinkSync (recUnlinkFault env) filepath ;;
  log ("Temporary file deleted: " ++ filepath) false ;;
  ret (Redirect "/").

Definition recoveryCatch (error : Error) : Run Response :=
  log ("Disaster recovery failed: " ++ error) true ;;
  emit "Disaster recovery failed" (Num (-1)) ;;
  ret (StatusSend 500 "Disaster recovery failed").

Definition postDisasterRecovery (filename : string) (env : RecoveryEnv) : Run Response :=
  tryCatch (recoveryTry filename env) recoveryCatch.

(** *** The dashboard (server.js 84-98) *)

(** [s.split('\n')] *)
Fixpoint splitLines (s : string) : list string :=
  match s with
  | EmptyString => [EmptyString]
  | String c s' =>
      if Ascii.eqb c "010" then EmptyString :: splitLines s'
      else match splitLines s' with
           | l :: ls => String c l :: ls
           | [] => [String c EmptyString]
           end
  end.

(** [Boolean(s)] for a string: it is not empty. *)
Definition nonEmpty (s : string) : bool :=
  match s with EmptyString => false | String _ _ => true end.

(** server.js 90:
    [fs.readFileSync(logFile, 'utf8').split('\n').filter(Boolean).reverse().slice(0, 50)] *)
Definition readLogs (content : string) : list string :=
  firstn 50 (rev (List.filter nonEmpty (splitLines content))).

(** [fs.readFileSync(logFile, 'utf8')] *)
Definition readLogFile : Run string := fun w => (Normal (logFileContent w), w).

Definition homeTry (listObjects : Outcome (list string))
    (AUTO_BACKUP_SCHEDULE : option string) : Run Response :=
  log "Fetching backup list from IBM Cloud Storage..." false ;;
  backups <- await listObjects ;;
  content <- readLogFile ;;
  let logs := readLogs content in
  let autoBackupSchedule :=
    match AUTO_BACKUP_SCHEDULE with
    | Some v => if truthy AUTO_BACKUP_SCHEDULE then v else "Not scheduled"
    | None => "Not scheduled"
    end in
  log ("Found " ++ pretty (length backups) ++ " backups") false ;;
  ret (Render "dashboard" backups logs autoBackupSchedule).

Definition homeCatch (error : Error) : Run Response :=
  log ("Error loading dashboard: " ++ error) true ;;
  ret (StatusSend 500 "Failed to load dashboard").

Definition getHome (listObjects : Outcome (list string))
    (AUTO_BACKUP_SCHEDULE : option string) : Run Response :=
  tryCatch (homeTry listObjects AUTO_BACKUP_SCHEDULE) homeCatch.

(** ** What a run did *)

Definition resultOf {A} (r : Run A) (w : World) : Completion A := fst (r w).
Definition worldAfter {A} (r : Run A) (w : World) : World := snd (r w).

(** The progress events a run emitted, and the audit entries it wrote. *)
Definition eventsOf {A} (r : Run A) (w : World) : list ProgressEvent :=
  drop (length (channel w)) (channel (worldAfter r w)).
Definition entriesOf {A} (r : Run A) (w : World) : list AuditEntry :=
  drop (length (auditLog w)) (auditLog (worldAfter r w)).

Definition escalated (e : AuditEntry) : Prop := entryNotify e = true.

(** The running byte counts the 'data' handlers see. *)
Fixpoint runningTotals (bytes : N) (chunks : list N) : list N :=
  match chunks with
  | [] => []
  | chunk :: rest => (bytes + chunk)%N :: runningTotals (bytes + chunk)%N rest
  end.

Definition totalBytes (chunks : list N) : N := fold_right N.add 0%N chunks.

(** The chunks of a transfer fit the announced size: they never add up
    to more, and a transfer of size zero delivers no chunk. *)
Definition chunksWithin (size : N) (chunks : list N) : Prop :=
  (totalBytes chunks <= size)%N /\ (chunks <> [] -> (0 < size)%N).


(** The value of a percentage lies between two bounds. *)
Definition between (lo hi : Q) (p : Percentage) : Prop :=
  exists q, pctValue p = Some q /\ (lo <= q <= hi)%Q.


(** A stretch of percentages that does not decrease and stays in a range. *)
Definition risesWithin (lo hi : Q) (l : list Percentage) : Prop :=
  nonDecreasing l /\ Forall (between lo hi) l.

(** Append events to the progress channel. *)
Definition pushEvents (evs : list ProgressEvent) (w : World) : World :=
  mkWorld (wallClock w) (epochClock w) (clockReads w) (auditLog w)
          (channel w ++ evs) (tempDir w).

(** The events a 'data' handler emits over the chunks of a transfer. *)
Definition chunkEvents (msg : string) (pct : N -> N -> Percentage)
    (size bytes : N) (chunks : list N) : list ProgressEvent :=
  map (fun total => mkEvent msg (pct total size)) (runningTotals bytes chunks).


(** The sizes the 'data' handlers divide by, and the chunks they see. *)
Definition backupTransferFits (env : BackupEnv) : Prop :=
  forall size, pgDump env = Dumped size -> chunksWithin size (uploadChunks env).
Definition restoreTransferFits (env : RestoreEnv) : Prop :=
  forall size, headObject env = Resolved size -> chunksWithin size (downloadChunks env).
Definition recoveryTransferFits (env : RecoveryEnv) : Prop :=
  forall size, recHeadObject env = Resolved size -> chunksWithin size (recDownloadChunks env).

(** The main effect succeeds and then [unlinkSync] throws [e]. *)
Definition backupDeletionFails (env : BackupEnv) (e : Error) : Prop :=
  (exists size, pgDump env = Dumped size) /\ cosUpload env = Resolved tt /\
  backupUnlinkFault env = Some e.
Definition restoreDeletionFails (env : RestoreEnv) (e : Error) : Prop :=
  (exists size, headObject env = Resolved size) /\ writeEnd env = Finish /\
  psql env = Resolved tt /\ restoreUnlinkFault env = Some e.
Definition recoveryDeletionFails (env : RecoveryEnv) (e : Error) : Prop :=
  createdb env = Resolved tt /\ (exists size, recHeadObject env = Resolved size) /\
  recWriteEnd env = Finish /\ recPsql env = Resolved tt /\ recUnlinkFault env = Some e.

(** A world to evaluate runs in: 2024-03-07T09:05:01.042Z, an empty
    log, no events, an empty temp directory. *)
Definition sampleDate : JSDate.Date := JSDate.mkDate 2024 3 7 9 5 1 42.
Definition sampleWorld : World :=
  mkWorld (fun _ => sampleDate) (fun _ => 1709802301042) 0 [] [] ∅.

Definition sampleBackup : BackupEnv :=
  mkBackupEnv (Dumped 1000) [400%N; 600%N] (Resolved tt) None.

(** A number, or a two-decimal numeric string. *)
Definition numberOrFixed2 (p : Percentage) : Prop :=
  match p with Num _ | Fixed2 _ => True | StrNaN | StrInfinity => False end.

(** The percentage of an event denotes a value in [-1,100]. *)
Definition shapedEvent (ev : ProgressEvent) : Prop :=
  between (-1) 100 (percentage ev) /\ numberOrFixed2 (percentage ev).

(** The dump succeeds and the upload is rejected. *)
Definition failingUpload : BackupEnv :=
  mkBackupEnv (Dumped 1000) [400%N] (Rejected "socket hang up") None.

(** The download succeeds and psql exits with a non-zero code. *)
Definition failingPsql : RestoreEnv :=
  mkRestoreEnv (Resolved 1000%N) [400%N; 600%N] Finish (Rejected "Command failed: psql") None.

Definition sampleRestore : RestoreEnv :=
  mkRestoreEnv (Resolved 1000%N) [400%N; 600%N] Finish (Resolved tt) None.

Definition sampleRecovery : RecoveryEnv :=
  mkRecoveryEnv (Resolved tt) (Resolved 1000%N) [400%N; 600%N] Finish (Resolved tt) None.

(** The string contains no line feed. *)
Fixpoint noNewline (s : string) : bool :=
  match s with
  | EmptyString => true
  | String c s' => negb (Ascii.eqb c "010") && noNewline s'
  end.

(** ** The rest of server.js *)

(** *** Authentication middleware (server.js 71-82) *)

(** What [basicAuth(req)] parses from the Authorization header. *)
Record Credentials := mkCredentials {
  name : string;
  pass : string
}.

(** [s === process.env.V]: a string never equals an unset variable. *)
Definition strictEq (s : string) (v : option string) : bool :=
  match v with
  | Some t => String.eqb s t
  | None => false
  end.

(** What a request gets back: the 401 challenge of the middleware, or
    the response of the route behind it. *)
Inductive Reply :=
| Challenge (wwwAuthenticate : string) (status : Z) (body : string)
| Routed (res : Response).

(** [Basic realm="Backup Dashboard"] *)
Definition basicRealm : string :=
  "Basic realm=" ++ String "034" ("Backup Dashboard" ++ String "034" EmptyString).

Definition authenticate (user : option Credentials)
    (ADMIN_USER ADMIN_PASS : option string) (next : Run Response) : Run Reply :=
  match user with
  | Some u =>
      if strictEq (name u) ADMIN_USER && strictEq (pass u) ADMIN_PASS then
        log ("Authentication successful for user: " ++ name u) false ;;
        res <- next ;;
        ret (Routed res)
      else
        log "Authentication failed" false ;;
        ret (Challenge basicRealm 401 "Authentication required")
  | None =>
      log "Authentication failed" false ;;
      ret (Challenge basicRealm 401 "Authentication required")
  end.

(** *** The notifier's callback (server.js 40-51) *)

(** The callback of [transporter.sendMail]: it logs how the delivery
    went, with the default [notify = false]. *)
Definition mailCallback (error : option Error) : Run unit :=
  match error with
  | Some e => log ("Email notification failed: " ++ e) false
  | None => log "Email notification sent successfully" false
  end.

(** The callbacks of the pending deliveries, in the order they fire. *)
Fixpoint mailCallbacks (deliveries : list (option Error)) : Run unit :=
  match deliveries with
  | [] => ret tt
  | d :: rest => mailCallback d ;; mailCallbacks rest
  end.

(** *** Startup (server.js 53, 66-69, 149-157, 296-299) *)




(** ** The dashboard page (public/script.js) *)







(** ** Evaluating the model *)

Example backupFilename_ex :
  backupFilename (JSDate.mkDate 2024 3 7 9 5 1 42) = "backup-2024-03-07T09-05-01.042Z.sql".
Proof. reflexivity. Qed.

Example uploadPercentage_ex : uploadPercentage 1 7 = Fixed2 2286.
Proof. reflexivity. Qed.
Example restorePercentage_ex : restorePercentage 500 1000 = Fixed2 4000.
Proof. reflexivity. Qed.
Example recoveryPercentage_ex : recoveryPercentage 3 0 = StrInfinity.
Proof. reflexivity. Qed.

(** A manual backup of a 1,000-byte dump read in two chunks. *)
Example sampleBackup_events :
  map percentage (eventsOf (postBackup sampleBackup) sampleWorld)
  = [Num 0; Num 10; Fixed2 4600; Fixed2 10000; Num 100].
Proof. reflexivity. Qed.

Example sampleBackup_log :
  map entryMessage (entriesOf (postBackup sampleBackup) sampleWorld)
  = ["Starting backup process: backup-2024-03-07T09-05-01.042Z.sql";
     "Backup file created: temp/backup-2024-03-07T09-05-01.042Z.sql, uploading to IBM COS...";
     "Backup uploaded: backup-2024-03-07T09-05-01.042Z.sql";
     "Temporary file deleted: temp/backup-2024-03-07T09-05-01.042Z.sql"].
Proof. reflexivity. Qed.

Example sampleRestore_events :
  map percentage (eventsOf (postRestore "backup.sql" sampleRestore) sampleWorld)
  = [Num 0; Fixed2 3200; Fixed2 8000; Num 80; Num 100].
Proof. reflexivity. Qed.

Example sampleRecovery_events :
  map percentage (eventsOf (postDisasterRecovery "backup.sql" sampleRecovery) sampleWorld)
  = [Num 0; Num 10; Fixed2 3800; Fixed2 8000; Num 80; Num 100].
Proof. reflexivity. Qed.

(** A restore of a key the store does not hold: one -1 event, one
    escalated entry, no temp file. *)
Example missingKey_restore :
  let env := mkRestoreEnv (Rejected "NotFound") [] Finish (Resolved tt) None in
  let run := postRestore "missing.sql" env in
  map percentage (eventsOf run sampleWorld) = [Num 0; Num (-1)] /\
  map entryNotify (entriesOf run sampleWorld) = [false; true] /\
  tempDir (worldAfter run sampleWorld) !! "temp/missing.sql" = None.
Proof. repeat split. Qed.

Example readLogs_ex :
  readLogs (appendLines ["[t1] a"; "[t2] b"; "[t3] c"]) = ["[t3] c"; "[t2] b"; "[t1] a"].
Proof. reflexivity. Qed.

Example splitLines_ex : splitLines (appendLines ["a"; "b"]) = ["a"; "b"; ""].
Proof. reflexivity. Qed.

(** A download that delivers more bytes than the metadata announced
    overshoots its sub-range and then falls back to 80. *)
Example oversized_download_events :
  let env := mkRestoreEnv (Resolved 5%N) [10%N] Finish (Resolved tt) None in
  map percentage (eventsOf (postRestore "backup.sql" env) sampleWorld)
  = [Num 0; Fixed2 16000; Num 80; Num 100].
Proof. reflexivity. Qed.

(** When [unlinkSync] throws after the upload, the run has already
    emitted 100 and emits -1 as well. *)
Example failed_deletion_events :
  let env := mkBackupEnv (Dumped 1000) [400%N; 600%N] (Resolved tt) (Some "EPERM") in
  map percentage (eventsOf (postBackup env) sampleWorld)
  = [Num 0; Num 10; Fixed2 4600; Fixed2 10000; Num 100; Num (-1)].
Proof. reflexivity. Qed.

(** POST /backup redirects to the dashboard after a failed backup too. *)
Example failed_backup_response :
  resultOf (performBackup (Some io) failingUpload) sampleWorld = Normal false /\
  resultOf (postBackup failingUpload) sampleWorld = Normal (Redirect "/").
Proof. split; reflexivity. Qed.

(** ** Artifact identifiers *)

Section Filenames.
Import JSDate.

Lemma digit_code z :
  exists k, (k < 10)%nat /\ digit z = ascii_of_nat (48 + k) /\ Z.of_nat k = z mod 10.
Proof.
  exists (Z.to_nat (z mod 10)).
  pose proof (Z.mod_pos_bound z 10 ltac:(lia)).
  repeat split; [lia | lia].
Qed.

Lemma digit_inj a b : digit a = digit b -> a mod 10 = b mod 10.
Proof.
  destruct (digit_code a) as (ka & Ha & -> & <-).
  destruct (digit_code b) as (kb & Hb & -> & <-).
  intros H. apply (f_equal nat_of_ascii) in H.
  rewrite !nat_ascii_embedding in H by lia. lia.
Qed.

(** A digit is none of the separators the identifier contains. *)
Lemma digit_not_colon z : Ascii.eqb (digit z) ":" = false.
Proof.
  destruct (digit_code z) as (k & Hk & -> & _).
  do 10 (destruct k as [|k]; [reflexivity|]). lia.
Qed.

Lemma digit_not_sign z : digit z <> "-"%char /\ digit z <> "+"%char.
Proof.
  destruct (digit_code z) as (k & Hk & -> & _).
  do 10 (destruct k as [|k]; [split; discriminate|]). lia.
Qed.

End Filenames.

Arguments JSDate.digit : simpl never.

(** Keep the hypotheses about the two fields compared in the goal. *)
Ltac keep_field :=
  match goal with
  | |- ?a = ?b =>
      repeat match goal with
      | E : _ |- _ =>
          lazymatch type of E with
          | context [a] => fail
          | context [b] => fail
          | _ => clear E
          end
      end
  end.

Lemma isoYear_cases y :
  -271821 <= y <= 275760 ->
  (0 <= y <= 9999 /\ JSDate.isoYear y = JSDate.pad4 y) \/
  (y < 0 /\ JSDate.isoYear y = String "-" (JSDate.pad6 (- y))) \/
  (9999 < y /\ JSDate.isoYear y = String "+" (JSDate.pad6 y)).
Proof.
  intros Hy. unfold JSDate.isoYear.
  destruct (Z.leb_spec 0 y), (Z.leb_spec y 9999), (Z.ltb_spec y 0); simpl; try lia; auto.
Qed.

Lemma backupFilename_inj (d1 d2 : JSDate.Date) :
  JSDate.valid d1 -> JSDate.valid d2 ->
  backupFilename d1 = backupFilename d2 -> d1 = d2.
Proof.
  destruct d1 as [y1 mo1 da1 h1 mi1 s1 ms1], d2 as [y2 mo2 da2 h2 mi2 s2 ms2].
  unfold JSDate.valid; cbn [JSDate.year JSDate.month JSDate.day JSDate.hours
    JSDate.minutes JSDate.seconds JSDate.milliseconds].
  intros V1 V2 H.
  unfold backupFilename, JSDate.toISOString in H;
  cbn [JSDate.year JSDate.month JSDate.day JSDate.hours
    JSDate.minutes JSDate.seconds JSDate.milliseconds] in H.
  destruct (isoYear_cases y1 ltac:(lia)) as [[Y1 E1]|[[Y1 E1]|[Y1 E1]]],
    (isoYear_cases y2 ltac:(lia)) as [[Y2 E2]|[[Y2 E2]|[Y2 E2]]];
    rewrite E1, E2 in H; clear E1 E2.
  all: cbv beta iota fix delta
         [String.append replaceColons JSDate.pad2 JSDate.pad3 JSDate.pad4 JSDate.pad6] in H;
       rewrite ?digit_not_colon in H.
  all: injection H; clear H; intros.
  all: repeat match goal with
      | E : JSDate.digit ?z = _ |- _ => solve [destruct (digit_not_sign z); congruence]
      | E : _ = JSDate.digit ?z |- _ => solve [destruct (digit_not_sign z); congruence]
      end.
  all: repeat match goal with
      | E : JSDate.digit _ = JSDate.digit _ |- _ => apply digit_inj in E
      end.
  all: destruct V1 as (? & ? & ? & ? & ? & ? & ?), V2 as (? & ? & ? & ? & ? & ? & ?);
       f_equal; keep_field; Z.to_euclidean_division_equations; lia.
Qed.

(** ** The per-chunk percentages *)

Section Rescaling.
Local Open Scope Q_scope.

(** The transfer ratio of a well-formed transfer lies in [0,1]. *)
Lemma ratio_bounds (b S : N) :
  (0 < S)%N -> (b <= S)%N -> 0 <= ofN b / ofN S <= 1.
Proof.
  intros HS Hb. unfold ofN.
  assert (HS' : 0 < inject_Z (Z.of_N S)) by (rewrite <- (Zlt_Qlt 0); lia).
  split.
  - apply Qle_shift_div_l; [exact HS'|]. rewrite Qmult_0_l.
    rewrite <- (Zle_Qle 0). lia.
  - apply Qle_shift_div_r; [exact HS'|]. rewrite Qmult_1_l.
    rewrite <- Zle_Qle. lia.
Qed.

Lemma ratio_mono (b1 b2 S : N) :
  (0 < S)%N -> (b1 <= b2)%N -> ofN b1 / ofN S <= ofN b2 / ofN S.
Proof.
  intros HS Hb. unfold ofN, Qdiv.
  apply Qmult_le_compat_r.
  - rewrite <- Zle_Qle. lia.
  - apply Qinv_le_0_compat. rewrite <- (Zle_Qle 0). lia.
Qed.


(** Rounding keeps a value between two bounds that are whole hundredths. *)
Lemma round_between (q : Q) (lo hi : Z) :
  inject_Z lo <= q * 100 -> q * 100 <= inject_Z hi ->
  (lo <= Qfloor (q * 100 + (1 # 2)) <= hi)%Z.
Proof.
  intros Hlo Hhi. split.
  - rewrite <- (Qfloor_Z lo). apply Qfloor_resp_le. lra.
  - pose proof (Qfloor_le (q * 100 + (1 # 2))) as H.
    assert (Hlt : inject_Z (Qfloor (q * 100 + (1 # 2))) < inject_Z (hi + 1)).
    { rewrite inject_Z_plus. change (inject_Z 1) with 1. lra. }
    rewrite <- Zlt_Qlt in Hlt. lia.
Qed.

Lemma round_mono (q1 q2 : Q) :
  q1 <= q2 -> (Qfloor (q1 * 100 + (1 # 2)) <= Qfloor (q2 * 100 + (1 # 2)))%Z.
Proof. intros H. apply Qfloor_resp_le. lra. Qed.

End Rescaling.

Section Percentages.
Local Open Scope Q_scope.

Lemma fixed2_between (h lo hi : Z) :
  (lo <= h <= hi)%Z -> between (inject_Z lo / 100) (inject_Z hi / 100) (Fixed2 h).
Proof.
  intros [Hlo Hhi]. exists (inject_Z h / 100). split; [reflexivity|].
  rewrite Zle_Qle in Hlo, Hhi. unfold Qdiv. split; apply Qmult_le_compat_r; auto; discriminate.
Qed.

Lemma between_weaken lo hi lo' hi' p :
  lo' <= lo -> hi <= hi' -> between lo hi p -> between lo' hi' p.
Proof. intros ? ? (q & Hq & ? & ?). exists q. split; [exact Hq | split; lra]. Qed.

Lemma num_between (n : Z) lo hi :
  lo <= inject_Z n -> inject_Z n <= hi -> between lo hi (Num n).
Proof. intros. exists (inject_Z n). auto. Qed.


Lemma pctLe_fixed2 h1 h2 : (h1 <= h2)%Z -> pctLe (Fixed2 h1) (Fixed2 h2).
Proof.
  intros H. unfold pctLe; simpl. rewrite Zle_Qle in H.
  unfold Qdiv. apply Qmult_le_compat_r; [exact H | discriminate].
Qed.

(** What the three computations return on a transfer of positive size. *)
Lemma uploadPercentage_fixed b S :
  (0 < S)%N ->
  uploadPercentage b S = Fixed2 (Qfloor ((ofN b / ofN S * 90 + 10) * 100 + (1 # 2))).
Proof.
  intros HS. unfold uploadPercentage, jsDiv.
  destruct (N.eqb_spec S 0); [lia | reflexivity].
Qed.

Lemma restorePercentage_fixed b S :
  (0 < S)%N ->
  restorePercentage b S = Fixed2 (Qfloor ((ofN b / ofN S * 80) * 100 + (1 # 2))).
Proof.
  intros HS. unfold restorePercentage, jsDiv.
  destruct (N.eqb_spec S 0); [lia | reflexivity].
Qed.

Lemma recoveryPercentage_fixed b S :
  (0 < S)%N ->
  recoveryPercentage b S = Fixed2 (Qfloor ((ofN b / ofN S * 70 + 10) * 100 + (1 # 2))).
Proof.
  intros HS. unfold recoveryPercentage, jsDiv.
  destruct (N.eqb_spec S 0); [lia | reflexivity].
Qed.

Lemma uploadPercentage_between b S :
  (0 < S)%N -> (b <= S)%N -> between 10 100 (uploadPercentage b S).
Proof.
  intros HS Hb. rewrite uploadPercentage_fixed by assumption.
  destruct (ratio_bounds b S HS Hb). set (r := ofN b / ofN S) in *.
  apply (between_weaken (inject_Z 1000 / 100) (inject_Z 10000 / 100)); [unfold Qle; simpl; lia | unfold Qle; simpl; lia |].
  apply fixed2_between, round_between; unfold inject_Z; lra.
Qed.

Lemma restorePercentage_between b S :
  (0 < S)%N -> (b <= S)%N -> between 0 80 (restorePercentage b S).
Proof.
  intros HS Hb. rewrite restorePercentage_fixed by assumption.
  destruct (ratio_bounds b S HS Hb). set (r := ofN b / ofN S) in *.
  apply (between_weaken (inject_Z 0 / 100) (inject_Z 8000 / 100)); [unfold Qle; simpl; lia | unfold Qle; simpl; lia |].
  apply fixed2_between, round_between; unfold inject_Z; lra.
Qed.

Lemma recoveryPercentage_between b S :
  (0 < S)%N -> (b <= S)%N -> between 10 80 (recoveryPercentage b S).
Proof.
  intros HS Hb. rewrite recoveryPercentage_fixed by assumption.
  destruct (ratio_bounds b S HS Hb). set (r := ofN b / ofN S) in *.
  apply (between_weaken (inject_Z 1000 / 100) (inject_Z 8000 / 100)); [unfold Qle; simpl; lia | unfold Qle; simpl; lia |].
  apply fixed2_between, round_between; unfold inject_Z; lra.
Qed.

Lemma uploadPercentage_mono b1 b2 S :
  (0 < S)%N -> (b1 <= b2)%N -> pctLe (uploadPercentage b1 S) (uploadPercentage b2 S).
Proof.
  intros HS Hb. rewrite !uploadPercentage_fixed by assumption.
  pose proof (ratio_mono b1 b2 S HS Hb).
  apply pctLe_fixed2, round_mono. lra.
Qed.

Lemma restorePercentage_mono b1 b2 S :
  (0 < S)%N -> (b1 <= b2)%N -> pctLe (restorePercentage b1 S) (restorePercentage b2 S).
Proof.
  intros HS Hb. rewrite !restorePercentage_fixed by assumption.
  pose proof (ratio_mono b1 b2 S HS Hb).
  apply pctLe_fixed2, round_mono. lra.
Qed.

Lemma recoveryPercentage_mono b1 b2 S :
  (0 < S)%N -> (b1 <= b2)%N -> pctLe (recoveryPercentage b1 S) (recoveryPercentage b2 S).
Proof.
  intros HS Hb. rewrite !recoveryPercentage_fixed by assumption.
  pose proof (ratio_mono b1 b2 S HS Hb).
  apply pctLe_fixed2, round_mono. lra.
Qed.

End Percentages.

(** ** Stretches of percentages *)

Lemma risesWithin_nil lo hi : risesWithin lo hi [].
Proof. split; [exact I | constructor]. Qed.


Lemma risesWithin_weaken lo hi lo' hi' l :
  (lo' <= lo)%Q -> (hi <= hi')%Q -> risesWithin lo hi l -> risesWithin lo' hi' l.
Proof.
  intros Hlo Hhi [Hs Hb]. split; [exact Hs|].
  eapply Forall_impl; [exact Hb|]. intros p. apply between_weaken; assumption.
Qed.


(** The per-chunk percentages of a transfer that fits its size. *)
Lemma risesWithin_chunks (pct : N -> N -> Percentage) lo hi (S : N) :
  (forall b, (b <= S)%N -> between lo hi (pct b S)) ->
  (forall b1 b2, (b1 <= b2)%N -> pctLe (pct b1 S) (pct b2 S)) ->
  forall chunks bytes,
    (bytes + totalBytes chunks <= S)%N ->
    risesWithin lo hi (map (fun total => pct total S) (runningTotals bytes chunks)).
Proof.
  intros Hb Hm. induction chunks as [|c chunks IH]; intros bytes Hfit.
  - apply risesWithin_nil.
  - simpl in *. destruct (IH (bytes + c)%N ltac:(lia)) as [Hs Hf].
    split.
    + simpl. split; [|exact Hs].
      destruct chunks as [|c' chunks]; simpl; [exact I|]. apply Hm. lia.
    + constructor; [apply Hb; lia | exact Hf].
Qed.

Lemma percentages_chunkEvents msg pct size bytes chunks :
  map percentage (chunkEvents msg pct size bytes chunks) =
  map (fun total => pct total size) (runningTotals bytes chunks).
Proof. unfold chunkEvents. rewrite map_map. reflexivity. Qed.

Lemma chunkEvents_nil msg pct size bytes : chunkEvents msg pct size bytes [] = [].
Proof. reflexivity. Qed.

(** With nothing to deliver the stretch is empty; otherwise the size is
    positive and the chunk lemmas apply. *)
Lemma risesWithin_transfer (pct : N -> N -> Percentage) lo hi (S : N) chunks :
  ((0 < S)%N -> forall b, (b <= S)%N -> between lo hi (pct b S)) ->
  ((0 < S)%N -> forall b1 b2, (b1 <= b2)%N -> pctLe (pct b1 S) (pct b2 S)) ->
  chunksWithin S chunks ->
  risesWithin lo hi (map (fun total => pct total S) (runningTotals 0 chunks)).
Proof.
  intros Hb Hm [Hfit Hpos].
  destruct chunks as [|c chunks]; [apply risesWithin_nil|].
  assert (HS : (0 < S)%N) by (apply Hpos; discriminate).
  apply risesWithin_chunks; [auto | auto | lia].
Qed.

(** ** Running the handlers *)

Lemma forEachChunk_upload_observed (s : Socket) size chunks : forall bytes w,
  forEachChunk chunks bytes (onUploadData (Some s) size) w =
  (Normal (bytes + totalBytes chunks)%N,
   pushEvents (chunkEvents "Uploading..." uploadPercentage size bytes chunks) w).
Proof.
  induction chunks as [|c chunks IH]; intros bytes w.
  - destruct w. unfold pushEvents, chunkEvents. simpl. rewrite app_nil_r, N.add_0_r. reflexivity.
  - simpl. unfold bind at 1. unfold onUploadData at 1. unfold bind, emitIf, emit, ret. simpl.
    rewrite IH. unfold pushEvents, chunkEvents. simpl. rewrite <- app_assoc. simpl.
    rewrite N.add_assoc. reflexivity.
Qed.

Lemma forEachChunk_upload_silent size chunks : forall bytes w,
  forEachChunk chunks bytes (onUploadData None size) w =
  (Normal (bytes + totalBytes chunks)%N, w).
Proof.
  induction chunks as [|c chunks IH]; intros bytes w.
  - simpl. rewrite N.add_0_r. reflexivity.
  - simpl. unfold bind at 1. unfold onUploadData at 1. unfold bind, emitIf, ret. simpl.
    rewrite IH, N.add_assoc. reflexivity.
Qed.

Lemma forEachChunk_restore size chunks : forall bytes w,
  forEachChunk chunks bytes (onRestoreData size) w =
  (Normal (bytes + totalBytes chunks)%N,
   pushEvents (chunkEvents "Downloading..." restorePercentage size bytes chunks) w).
Proof.
  induction chunks as [|c chunks IH]; intros bytes w.
  - destruct w. unfold pushEvents, chunkEvents. simpl. rewrite app_nil_r, N.add_0_r. reflexivity.
  - simpl. unfold bind at 1. unfold onRestoreData at 1. unfold bind, emit, ret. simpl.
    rewrite IH. unfold pushEvents, chunkEvents. simpl. rewrite <- app_assoc. simpl.
    rewrite N.add_assoc. reflexivity.
Qed.

Lemma forEachChunk_recovery size chunks : forall bytes w,
  forEachChunk chunks bytes (onRecoveryData size) w =
  (Normal (bytes + totalBytes chunks)%N,
   pushEvents (chunkEvents "Downloading backup..." recoveryPercentage size bytes chunks) w).
Proof.
  induction chunks as [|c chunks IH]; intros bytes w.
  - destruct w. unfold pushEvents, chunkEvents. simpl. rewrite app_nil_r, N.add_0_r. reflexivity.
  - simpl. unfold bind at 1. unfold onRecoveryData at 1. unfold bind, emit, ret. simpl.
    rewrite IH. unfold pushEvents, chunkEvents. simpl. rewrite <- app_assoc. simpl.
    rewrite N.add_assoc. reflexivity.
Qed.

(** Symbolic execution of a handler: unfold the handler and the
    primitives, resolve the file lookups and the chunk loops, and read
    off the events and entries the run appended. *)
Ltac run_steps :=
  repeat progress
    (lazy beta iota zeta delta
       [eventsOf entriesOf resultOf worldAfter
        postBackup autoBackupTick performBackup backupTry backupCatch
        postRestore restoreTry restoreCatch
        postDisasterRecovery recoveryTry recoveryCatch
        postDelete deleteTry deleteCatch pipeToFile
        tryCatch bind log newDate dateNow appendEntry emitIf emit
        execDump writeFile setTempDir statSync unlinkSync await ret throw
        pushEvents];
     cbn [fst snd wallClock epochClock clockReads auditLog channel tempDir
          pgDump uploadChunks cosUpload backupUnlinkFault
          headObject downloadChunks writeEnd psql restoreUnlinkFault
          createdb recHeadObject recDownloadChunks recWriteEnd recPsql recUnlinkFault]).

(** Case analysis on the next outcome the run depends on. *)
Ltac split_outcome :=
  match goal with
  | |- context [match ?x with _ => _ end] => is_var x; destruct x
  end.

Ltac simulate :=
  run_steps;
  repeat first
    [ rewrite lookup_insert_eq; run_steps
    | rewrite forEachChunk_upload_observed; run_steps
    | rewrite forEachChunk_upload_silent; run_steps
    | rewrite forEachChunk_restore; run_steps
    | rewrite forEachChunk_recovery; run_steps
    | split_outcome; run_steps ];
  rewrite <- ?app_assoc, ?drop_app_length.

(** The identifier a backup run uses is the one of its first clock reading. *)
Lemma performBackup_identifier socket env w :
  exists ts rest,
    entriesOf (performBackup socket env) w
    = mkEntry ts ("Starting backup process: "
                   ++ backupFilename (wallClock w (clockReads w))) false :: rest.
Proof.
  destruct env; simulate; eauto.
Qed.

(** C4 (as stated, refuted). Two backups started in the same wall-clock
    second, one millisecond apart, get different identifiers: the
    timestamp keeps the milliseconds. *)
Lemma same_second_distinct_identifiers :
  let d1 := JSDate.mkDate 2024 3 7 9 5 1 42 in
  let d2 := JSDate.mkDate 2024 3 7 9 5 1 43 in
  JSDate.valid d1 /\ JSDate.valid d2 /\ JSDate.sameSecond d1 d2 /\
  backupFilename d1 = "backup-2024-03-07T09-05-01.042Z.sql" /\
  backupFilename d2 = "backup-2024-03-07T09-05-01.043Z.sql" /\
  backupFilename d1 <> backupFilename d2.
Proof.
  cbv zeta. unfold JSDate.valid, JSDate.sameSecond. simpl.
  repeat split; try lia; try reflexivity. discriminate.
Qed.

(** C4 (amended). Artifact identifiers are derived from timestamps at
    millisecond resolution: two backup runs get the same identifier
    exactly when they start at the same millisecond; runs started in
    different seconds therefore get distinct identifiers, and runs in
    the same second collide only when their milliseconds agree. *)
Theorem identifiers_at_millisecond_resolution (d1 d2 : JSDate.Date) :
  JSDate.valid d1 -> JSDate.valid d2 ->
  (backupFilename d1 = backupFilename d2 <-> d1 = d2) /\
  (~ JSDate.sameSecond d1 d2 -> backupFilename d1 <> backupFilename d2) /\
  (JSDate.sameSecond d1 d2 ->
   (backupFilename d1 = backupFilename d2
    <-> JSDate.milliseconds d1 = JSDate.milliseconds d2)).
Proof.
  intros V1 V2.
  assert (Hiff : backupFilename d1 = backupFilename d2 <-> d1 = d2).
  { split; [apply backupFilename_inj; assumption | intros ->; reflexivity]. }
  split; [exact Hiff|]. split.
  - intros Hns Heq. apply Hiff in Heq. subst d2. apply Hns.
    unfold JSDate.sameSecond. tauto.
  - intros (Hy & Hmo & Hd & Hh & Hmi & Hs). rewrite Hiff. split; [intros ->; reflexivity|].
    destruct d1, d2; simpl in *. intros. subst. reflexivity.
Qed.

Lemma identifiers_at_millisecond_resolution_witness :
  backupFilename (JSDate.mkDate 2024 3 7 9 5 1 42)
  <> backupFilename (JSDate.mkDate 2024 3 7 9 5 2 42).
Proof.
  destruct (identifiers_at_millisecond_resolution
              (JSDate.mkDate 2024 3 7 9 5 1 42) (JSDate.mkDate 2024 3 7 9 5 2 42))
    as (_ & Hdistinct & _).
  - unfold JSDate.valid; simpl; lia.
  - unfold JSDate.valid; simpl; lia.
  - apply Hdistinct. unfold JSDate.sameSecond; simpl. lia.
Defined.







(** ** Progress sequences *)

Lemma nonDecreasing_prefix (l1 l2 : list Percentage) :
  nonDecreasing (l1 ++ l2) -> nonDecreasing l1.
Proof.
  induction l1 as [|a l1 IH]; [intros; exact I|].
  simpl. intros [Ha Hs]. split; [|apply IH; exact Hs].
  destruct l1; [exact I | exact Ha].
Qed.

Lemma risesWithin_prefix lo hi (l1 l2 : list Percentage) :
  risesWithin lo hi (l1 ++ l2) -> risesWithin lo hi l1.
Proof.
  intros [Hs Hb]. split; [eapply nonDecreasing_prefix; exact Hs|].
  apply Forall_app in Hb. tauto.
Qed.


















Lemma silent_backup_emits_nothing env w : eventsOf (performBackup None env) w = [].
Proof. destruct env; simulate; apply drop_all. Qed.




Ltac fits := intros size H; injection H as <-; split; [simpl; lia | intros _; reflexivity].


(** ** The shape of progress events *)

Lemma chunk_events_shaped msg (pct : N -> N -> Percentage) lo hi S chunks :
  (-1 <= lo)%Q -> (hi <= 100)%Q ->
  ((0 < S)%N -> forall b, (b <= S)%N -> between lo hi (pct b S)) ->
  ((0 < S)%N -> forall b1 b2, (b1 <= b2)%N -> pctLe (pct b1 S) (pct b2 S)) ->
  ((0 < S)%N -> forall b, numberOrFixed2 (pct b S)) ->
  chunksWithin S chunks ->
  Forall shapedEvent (chunkEvents msg pct S 0 chunks).
Proof.
  intros Hlo Hhi Hb Hm Hn Hfit.
  destruct (risesWithin_transfer pct lo hi S chunks Hb Hm Hfit) as [_ Hbetween].
  rewrite <- (percentages_chunkEvents msg) in Hbetween.
  rewrite Forall_map in Hbetween.
  destruct chunks as [|c chunks]; [constructor|].
  assert (HS : (0 < S)%N) by (apply Hfit; discriminate).
  apply Forall_forall. intros ev Hin. split.
  - rewrite Forall_forall in Hbetween.
    eapply between_weaken; [exact Hlo | exact Hhi | apply Hbetween, Hin].
  - unfold chunkEvents in Hin. apply list_elem_of_fmap in Hin as (total & -> & _).
    apply Hn, HS.
Qed.

Lemma upload_events_shaped S chunks :
  chunksWithin S chunks ->
  Forall shapedEvent (chunkEvents "Uploading..." uploadPercentage S 0 chunks).
Proof.
  apply (chunk_events_shaped _ _ 10 100); try easy.
  - intros; apply uploadPercentage_between; assumption.
  - intros; apply uploadPercentage_mono; assumption.
  - intros HS b. rewrite uploadPercentage_fixed by assumption. exact I.
Qed.

Lemma restore_events_shaped S chunks :
  chunksWithin S chunks ->
  Forall shapedEvent (chunkEvents "Downloading..." restorePercentage S 0 chunks).
Proof.
  apply (chunk_events_shaped _ _ 0 80); try easy.
  - intros; apply restorePercentage_between; assumption.
  - intros; apply restorePercentage_mono; assumption.
  - intros HS b. rewrite restorePercentage_fixed by assumption. exact I.
Qed.

Lemma recovery_events_shaped S chunks :
  chunksWithin S chunks ->
  Forall shapedEvent (chunkEvents "Downloading backup..." recoveryPercentage S 0 chunks).
Proof.
  apply (chunk_events_shaped _ _ 10 80); try easy.
  - intros; apply recoveryPercentage_between; assumption.
  - intros; apply recoveryPercentage_mono; assumption.
  - intros HS b. rewrite recoveryPercentage_fixed by assumption. exact I.
Qed.

(** A literal event [{message, percentage: n}] with [n] in [-1,100]. *)
Ltac shaped_literals :=
  repeat constructor;
  try (eexists; split; [reflexivity | split; unfold Qle; simpl; lia]).

Ltac shaped_events :=
  simulate; repeat (apply Forall_app; split); try assumption; shaped_literals.

Lemma backup_events_shaped socket env w :
  backupTransferFits env ->
  Forall shapedEvent (eventsOf (performBackup socket env) w).
Proof.
  destruct socket as [[]|]; [|intros _; rewrite silent_backup_emits_nothing; constructor].
  destruct env as [dump chunks up fault].
  unfold backupTransferFits; cbn [pgDump uploadChunks]. intros Hfit.
  destruct dump as [size|e partial];
    [pose proof (upload_events_shaped size chunks (Hfit size eq_refl)) as Hc|];
    clear Hfit; shaped_events.
Qed.

Lemma restore_events_all_shaped filename env w :
  restoreTransferFits env ->
  Forall shapedEvent (eventsOf (postRestore filename env) w).
Proof.
  destruct env as [head chunks wend sql fault].
  unfold restoreTransferFits; cbn [headObject downloadChunks]. intros Hfit.
  destruct head as [size|e];
    [pose proof (restore_events_shaped size chunks (Hfit size eq_refl)) as Hc|];
    clear Hfit; shaped_events.
Qed.

Lemma recovery_events_all_shaped filename env w :
  recoveryTransferFits env ->
  Forall shapedEvent (eventsOf (postDisasterRecovery filename env) w).
Proof.
  destruct env as [cdb head chunks wend sql fault].
  unfold recoveryTransferFits; cbn [recHeadObject recDownloadChunks]. intros Hfit.
  destruct head as [size|e];
    [pose proof (recovery_events_shaped size chunks (Hfit size eq_refl)) as Hc|];
    clear Hfit; shaped_events.
Qed.

(** C7 (as stated, refuted). The per-chunk event of a backup upload
    carries the string "46.00", not a number. *)
Lemma chunk_event_percentage_is_string :
  In (mkEvent "Uploading..." (Fixed2 4600)) (eventsOf (postBackup sampleBackup) sampleWorld) /\
  isString (Fixed2 4600) = true.
Proof. split; [vm_compute; tauto | reflexivity]. Qed.

(** C7 (amended). Every emitted progress event has a string message and
    a percentage that is a number or, for the events emitted per chunk
    during a streaming transfer, a two-decimal numeric string; its
    value lies in [-1,100], provided the chunks of the transfer fit the
    announced size. *)
Theorem progress_event_shape :
  (forall socket env w,
     backupTransferFits env ->
     Forall shapedEvent (eventsOf (performBackup socket env) w)) /\
  (forall filename env w,
     restoreTransferFits env ->
     Forall shapedEvent (eventsOf (postRestore filename env) w)) /\
  (forall filename env w,
     recoveryTransferFits env ->
     Forall shapedEvent (eventsOf (postDisasterRecovery filename env) w)) /\
  (forall b S,
     isString (uploadPercentage b S) = true /\ isString (restorePercentage b S) = true /\
     isString (recoveryPercentage b S) = true).
Proof.
  split; [exact backup_events_shaped|].
  split; [exact restore_events_all_shaped|].
  split; [exact recovery_events_all_shaped|].
  intros b S. unfold uploadPercentage, restorePercentage, recoveryPercentage, jsDiv.
  destruct (S =? 0)%N, (b =? 0)%N; repeat split.
Qed.

Lemma progress_event_shape_witness :
  Forall shapedEvent (eventsOf (performBackup (Some io) sampleBackup) sampleWorld) /\
  Forall shapedEvent (eventsOf (postRestore "backup.sql" sampleRestore) sampleWorld) /\
  Forall shapedEvent (eventsOf (postDisasterRecovery "backup.sql" sampleRecovery) sampleWorld).
Proof.
  destruct progress_event_shape as (Hb & Hr & Hd & _).
  split; [|split].
  - apply Hb. fits.
  - apply Hr. fits.
  - apply Hd. fits.
Defined.

(** ** Temporary files *)

Ltac simulate_files :=
  simulate; rewrite ?lookup_delete_eq, ?lookup_insert_eq.

(** After a run that reports success the temp file is gone. *)
Lemma backup_success_removes_temp_file socket env w :
  resultOf (performBackup socket env) w = Normal true ->
  tempDir (worldAfter (performBackup socket env) w)
    !! tempPath (backupFilename (wallClock w (clockReads w))) = None.
Proof.
  destruct env; simulate_files; intros H; first [discriminate H | reflexivity].
Qed.

Lemma restore_success_removes_temp_file filename env w :
  resultOf (postRestore filename env) w = Normal (Redirect "/") ->
  tempDir (worldAfter (postRestore filename env) w) !! tempPath filename = None.
Proof.
  destruct env; simulate_files; intros H; first [discriminate H | reflexivity].
Qed.

(** After a failed upload the dump stays in the temp directory. *)
Lemma backup_upload_failure_leaves_temp_file socket env w size e :
  pgDump env = Dumped size -> cosUpload env = Rejected e ->
  resultOf (performBackup socket env) w = Normal false /\
  tempDir (worldAfter (performBackup socket env) w)
    !! tempPath (backupFilename (wallClock w (clockReads w))) = Some size.
Proof.
  destruct env as [dump chunks up fault]; cbn [pgDump cosUpload]. intros -> ->.
  simulate_files; split; reflexivity.
Qed.

(** After a failed psql the download stays in the temp directory. *)
Lemma restore_psql_failure_leaves_temp_file filename env w size e :
  headObject env = Resolved size -> writeEnd env = Finish -> psql env = Rejected e ->
  resultOf (postRestore filename env) w = Normal (StatusSend 500 "Restore failed") /\
  tempDir (worldAfter (postRestore filename env) w) !! tempPath filename
    = Some (totalBytes (downloadChunks env)).
Proof.
  destruct env as [head chunks wend sql fault]; cbn [headObject writeEnd psql downloadChunks].
  intros -> -> ->.
  simulate_files; split; reflexivity.
Qed.

(** ** Errors at the operation boundary *)

Ltac last_element := rewrite ?last_app; cbn [last].








(** POST /backup answers with the same redirect whatever the run returned. *)
Lemma postBackup_always_redirects env w :
  resultOf (postBackup env) w = Normal (Redirect "/").
Proof. destruct env; simulate; reflexivity. Qed.

(** ** Escalation *)

Ltac find_entry := eexists; cbn [In app]; rewrite ?in_app_iff; cbn [In]; intuition eauto.






(** ** Scheduled backups *)



Lemma scheduleAutoBackup_absent w :
  resultOf (scheduleAutoBackup None) w = Normal [] /\
  resultOf (scheduleAutoBackup (Some "")) w = Normal [].
Proof. split; reflexivity. Qed.

(** ** Deletion failures after the main effect *)

Lemma backup_deletion_failure socket env w e :
  backupDeletionFails env e ->
  resultOf (performBackup socket env) w = Normal false /\
  (exists ts, In (mkEntry ts ("Backup uploaded: "
                    ++ backupFilename (wallClock w (clockReads w))) false)
                 (entriesOf (performBackup socket env) w)) /\
  (exists ts, last (entriesOf (performBackup socket env) w)
              = Some (mkEntry ts ("Backup failed: " ++ e) true)) /\
  (socket = Some io ->
   [mkEvent "Backup completed" (Num 100); mkEvent "Backup failed" (Num (-1))]
     `suffix_of` eventsOf (performBackup socket env) w).
Proof.
  destruct env as [dump chunks up fault].
  unfold backupDeletionFails; cbn [pgDump cosUpload backupUnlinkFault].
  intros ([size ->] & -> & ->).
  destruct socket as [[]|]; simulate; last_element;
    (split; [reflexivity|]); (split; [find_entry|]); (split; [eauto|]);
    intros H; try discriminate H.
  exists ([mkEvent "Starting backup..." (Num 0); mkEvent "Uploading backup..." (Num 10)]
            ++ chunkEvents "Uploading..." uploadPercentage size 0 chunks)%list.
  rewrite <- app_assoc. reflexivity.
Qed.

Lemma restore_deletion_failure filename env w e :
  restoreDeletionFails env e ->
  resultOf (postRestore filename env) w = Normal (StatusSend 500 "Restore failed") /\
  (exists ts, In (mkEntry ts ("Database restored successfully from: " ++ filename) true)
                 (entriesOf (postRestore filename env) w)) /\
  (exists ts, last (entriesOf (postRestore filename env) w)
              = Some (mkEntry ts ("Restore failed: " ++ e) true)) /\
  [mkEvent "Restore completed" (Num 100); mkEvent "Restore failed" (Num (-1))]
    `suffix_of` eventsOf (postRestore filename env) w.
Proof.
  destruct env as [head chunks wend sql fault].
  unfold restoreDeletionFails; cbn [headObject writeEnd psql restoreUnlinkFault].
  intros ([size ->] & -> & -> & ->).
  simulate; last_element;
    (split; [reflexivity|]); (split; [find_entry|]); (split; [eauto|]).
  exists ([mkEvent "Starting restore..." (Num 0)]
            ++ chunkEvents "Downloading..." restorePercentage size 0 chunks
            ++ [mkEvent "Restoring database..." (Num 80)])%list.
  rewrite <- !app_assoc. reflexivity.
Qed.

(** C1 (the code at the failing inputs). A backup whose upload is
    rejected, and a restore whose psql run fails, report failure and
    leave their temp file in the temp directory: the catch blocks do
    not delete it. *)
Theorem failed_runs_leave_temp_file :
  (resultOf (performBackup (Some io) failingUpload) sampleWorld = Normal false /\
   tempDir (worldAfter (performBackup (Some io) failingUpload) sampleWorld)
     !! "temp/backup-2024-03-07T09-05-01.042Z.sql" = Some 1000%N) /\
  (resultOf (postRestore "backup.sql" failingPsql) sampleWorld
     = Normal (StatusSend 500 "Restore failed") /\
   tempDir (worldAfter (postRestore "backup.sql" failingPsql) sampleWorld)
     !! "temp/backup.sql" = Some 1000%N).
Proof.
  split.
  - exact (backup_upload_failure_leaves_temp_file (Some io) failingUpload sampleWorld
             1000 "socket hang up" eq_refl eq_refl).
  - exact (restore_psql_failure_leaves_temp_file "backup.sql" failingPsql sampleWorld
             1000 "Command failed: psql" eq_refl eq_refl eq_refl).
Qed.








(** C10. In a backup or restore run whose main effect succeeded and
    whose 100 event went out, a failing temp-file deletion is caught by
    the same handler: the run then also emits -1, writes an escalated
    audit entry and reports failure to its caller (false from
    performBackup, the 500 response from the restore route), although
    the upload or the database restore completed. *)
Theorem deletion_failure_reported_after_success :
  (forall socket env w e,
     backupDeletionFails env e ->
     resultOf (performBackup socket env) w = Normal false /\
     (exists ts, In (mkEntry ts ("Backup uploaded: "
                       ++ backupFilename (wallClock w (clockReads w))) false)
                    (entriesOf (performBackup socket env) w)) /\
     (exists ts, last (entriesOf (performBackup socket env) w)
                 = Some (mkEntry ts ("Backup failed: " ++ e) true)) /\
     (socket = Some io ->
      [mkEvent "Backup completed" (Num 100); mkEvent "Backup failed" (Num (-1))]
        `suffix_of` eventsOf (performBackup socket env) w)) /\
  (forall filename env w e,
     restoreDeletionFails env e ->
     resultOf (postRestore filename env) w = Normal (StatusSend 500 "Restore failed") /\
     (exists ts, In (mkEntry ts ("Database restored successfully from: " ++ filename) true)
                    (entriesOf (postRestore filename env) w)) /\
     (exists ts, last (entriesOf (postRestore filename env) w)
                 = Some (mkEntry ts ("Restore failed: " ++ e) true)) /\
     [mkEvent "Restore completed" (Num 100); mkEvent "Restore failed" (Num (-1))]
       `suffix_of` eventsOf (postRestore filename env) w).
Proof.
  split; [exact backup_deletion_failure | exact restore_deletion_failure].
Qed.

Lemma deletion_failure_reported_after_success_witness :
  resultOf (performBackup (Some io)
              (mkBackupEnv (Dumped 1000) [400%N; 600%N] (Resolved tt) (Some "EPERM")))
           sampleWorld = Normal false /\
  resultOf (postRestore "backup.sql"
              (mkRestoreEnv (Resolved 1000%N) [400%N; 600%N] Finish (Resolved tt) (Some "EPERM")))
           sampleWorld = Normal (StatusSend 500 "Restore failed").
Proof.
  destruct deletion_failure_reported_after_success as (Hb & Hr).
  split.
  - apply (Hb (Some io) _ sampleWorld "EPERM").
    unfold backupDeletionFails; simpl. eauto.
  - apply (Hr "backup.sql" _ sampleWorld "EPERM").
    unfold restoreDeletionFails; simpl. eauto.
Defined.

(** ** The dashboard's log view *)

Lemma append_cons c (s t : string) : String c s ++ t = String c (s ++ t).
Proof. reflexivity. Qed.




(** What GET / renders as [logs] when the listing succeeds. *)
Lemma getHome_logs keys schedule w :
  exists ts view auto,
    resultOf (getHome (Resolved keys) schedule) w = Normal (Render "dashboard" keys view auto) /\
    view = readLogs (appendLines (map logMessage (auditLog w
             ++ [mkEntry ts "Fetching backup list from IBM Cloud Storage..." false]))).
Proof.
  unfold resultOf, getHome, homeTry, tryCatch, bind, log, newDate, appendEntry, await, ret,
    readLogFile, logFileContent. simpl. eauto.
Qed.



(** * Further properties of the handlers *)



(** ** The audit log and the progress channel only grow *)


(** ** Temporary files *)



(** X3. A run that fails before its transfer starts creates no temp
    file and says so at once: a restore or a disaster recovery of a key
    whose metadata call is rejected (a missing key), a disaster
    recovery whose createdb fails, a backup whose dump fails without
    leaving a file. The temp directory is unchanged, the events are
    0 (and 10 once the database exists) and -1, and the only escalated
    entry is the failure. *)
Theorem early_failure_leaves_nothing_behind :
  (forall filename env w e,
     headObject env = Rejected e ->
     resultOf (postRestore filename env) w = Normal (StatusSend 500 "Restore failed") /\
     tempDir (worldAfter (postRestore filename env) w) = tempDir w /\
     map percentage (eventsOf (postRestore filename env) w) = [Num 0; Num (-1)] /\
     map (fun a => (entryMessage a, entryNotify a)) (entriesOf (postRestore filename env) w)
       = [("Starting restore process: " ++ filename, false);
          ("Restore failed: " ++ e, true)]) /\
  (forall filename env w e,
     createdb env = Rejected e ->
     resultOf (postDisasterRecovery filename env) w
       = Normal (StatusSend 500 "Disaster recovery failed") /\
     tempDir (worldAfter (postDisasterRecovery filename env) w) = tempDir w /\
     map percentage (eventsOf (postDisasterRecovery filename env) w) = [Num 0; Num (-1)]) /\
  (forall filename env w e,
     createdb env = Resolved tt -> recHeadObject env = Rejected e ->
     resultOf (postDisasterRecovery filename env) w
       = Normal (StatusSend 500 "Disaster recovery failed") /\
     tempDir (worldAfter (postDisasterRecovery filename env) w) = tempDir w /\
     map percentage (eventsOf (postDisasterRecovery filename env) w)
       = [Num 0; Num 10; Num (-1)]) /\
  (forall env w e,
     pgDump env = DumpFailed e None ->
     resultOf (performBackup (Some io) env) w = Normal false /\
     tempDir (worldAfter (performBackup (Some io) env) w) = tempDir w /\
     map percentage (eventsOf (performBackup (Some io) env) w) = [Num 0; Num (-1)]).
Proof.
  split; [|split; [|split]].
  - intros filename [head chunks wend sql fault] w e; cbn [headObject]; intros ->.
    simulate. repeat split.
  - intros filename [cdb head chunks wend sql fault] w e; cbn [createdb]; intros ->.
    simulate. repeat split.
  - intros filename [cdb head chunks wend sql fault] w e; cbn [createdb recHeadObject].
    intros -> ->. simulate. repeat split.
  - intros [dump chunks up fault] w e; cbn [pgDump]; intros ->.
    simulate. repeat split.
Qed.

Lemma early_failure_leaves_nothing_behind_witness :
  map percentage
    (eventsOf (postRestore "missing.sql"
                 (mkRestoreEnv (Rejected "NotFound") [] Finish (Resolved tt) None))
              sampleWorld)
  = [Num 0; Num (-1)].
Proof.
  destruct early_failure_leaves_nothing_behind as (Hr & _).
  apply (Hr "missing.sql" _ sampleWorld "NotFound"). reflexivity.
Defined.

(** X4. Disaster recovery handles its temp file like restore: a run
    that answers with the redirect has deleted it; when psql fails
    after the download, or when [unlinkSync] throws after the 100
    event, the run answers 500 and the download stays where it is, and
    in the second case -1 follows the 100 already emitted. *)
Theorem recovery_temp_file (filename : string) (env : RecoveryEnv) (w : World) :
  (resultOf (postDisasterRecovery filename env) w = Normal (Redirect "/") ->
   tempDir (worldAfter (postDisasterRecovery filename env) w) !! tempPath filename = None) /\
  (forall size e,
     createdb env = Resolved tt -> recHeadObject env = Resolved size ->
     recWriteEnd env = Finish -> recPsql env = Rejected e ->
     resultOf (postDisasterRecovery filename env) w
       = Normal (StatusSend 500 "Disaster recovery failed") /\
     tempDir (worldAfter (postDisasterRecovery filename env) w) !! tempPath filename
       = Some (totalBytes (recDownloadChunks env))) /\
  (forall e,
     recoveryDeletionFails env e ->
     resultOf (postDisasterRecovery filename env) w
       = Normal (StatusSend 500 "Disaster recovery failed") /\
     tempDir (worldAfter (postDisasterRecovery filename env) w) !! tempPath filename
       = Some (totalBytes (recDownloadChunks env)) /\
     [mkEvent "Disaster recovery completed" (Num 100);
      mkEvent "Disaster recovery failed" (Num (-1))]
       `suffix_of` eventsOf (postDisasterRecovery filename env) w).
Proof.
  destruct env as [cdb head chunks wend sql fault].
  unfold recoveryDeletionFails.
  cbn [createdb recHeadObject recDownloadChunks recWriteEnd recPsql recUnlinkFault].
  split; [|split].
  - simulate_files; intros H; first [discriminate H | reflexivity].
  - intros size e -> -> -> ->. simulate_files. split; reflexivity.
  - intros e (-> & [size ->] & -> & -> & ->). simulate_files.
    split; [reflexivity|]. split; [reflexivity|].
    exists ([mkEvent "Starting disaster recovery..." (Num 0);
             mkEvent "Temporary database created..." (Num 10)]
              ++ chunkEvents "Downloading backup..." recoveryPercentage size 0 chunks
              ++ [mkEvent "Restoring to temporary database..." (Num 80)])%list.
    rewrite <- !app_assoc. reflexivity.
Qed.

Lemma recovery_temp_file_witness :
  tempDir (worldAfter (postDisasterRecovery "backup.sql" sampleRecovery) sampleWorld)
    !! "temp/backup.sql" = None.
Proof.
  destruct (recovery_temp_file "backup.sql" sampleRecovery sampleWorld) as (Hok & _).
  apply Hok. reflexivity.
Defined.

(** ** The answer and the last event agree *)


(** ** The rescaling at its edges *)

Section Edges.
Local Open Scope Q_scope.

Lemma ratio_full (S : N) : (0 < S)%N -> ofN S / ofN S == 1.
Proof.
  intros HS. apply Qmult_inv_r. unfold ofN. intros H.
  assert (Hpos : 0 < inject_Z (Z.of_N S)) by (rewrite <- (Zlt_Qlt 0); lia).
  rewrite H in Hpos. discriminate Hpos.
Qed.

Lemma ratio_none (S : N) : ofN 0 / ofN S == 0.
Proof. unfold ofN, Qdiv. simpl. apply Qmult_0_l. Qed.

End Edges.

(** X6. A transfer of positive size reports the bottom of its
    sub-range before the first byte and exactly the top once all bytes
    are through: "10.00" and "100.00" for an upload, "0.00" and "80.00"
    for a restore download, "10.00" and "80.00" for a disaster-recovery
    download. *)
Theorem percentage_at_range_ends (S : N) :
  (0 < S)%N ->
  (uploadPercentage 0 S = Fixed2 1000 /\ uploadPercentage S S = Fixed2 10000) /\
  (restorePercentage 0 S = Fixed2 0 /\ restorePercentage S S = Fixed2 8000) /\
  (recoveryPercentage 0 S = Fixed2 1000 /\ recoveryPercentage S S = Fixed2 8000).
Proof.
  intros HS.
  rewrite !uploadPercentage_fixed, !restorePercentage_fixed, !recoveryPercentage_fixed
    by assumption.
  rewrite (ratio_full S HS), (ratio_none S).
  repeat split.
Qed.

Lemma percentage_at_range_ends_witness :
  uploadPercentage 1000 1000 = Fixed2 10000 /\ restorePercentage 1000 1000 = Fixed2 8000.
Proof.
  destruct (percentage_at_range_ends 1000) as ((_ & Hu) & (_ & Hr) & _).
  - reflexivity.
  - exact (conj Hu Hr).
Defined.

(** X7. The rescaling never lowers the percentage when more bytes have
    arrived, whatever the byte counts (also beyond the announced
    size). *)
Theorem percentage_monotone_in_bytes (S b1 b2 : N) :
  (0 < S)%N -> (b1 <= b2)%N ->
  pctLe (uploadPercentage b1 S) (uploadPercentage b2 S) /\
  pctLe (restorePercentage b1 S) (restorePercentage b2 S) /\
  pctLe (recoveryPercentage b1 S) (recoveryPercentage b2 S).
Proof.
  intros HS Hb. split; [|split].
  - apply uploadPercentage_mono; assumption.
  - apply restorePercentage_mono; assumption.
  - apply recoveryPercentage_mono; assumption.
Qed.

Lemma percentage_monotone_in_bytes_witness :
  pctLe (uploadPercentage 400 1000) (uploadPercentage 1000 1000).
Proof.
  destruct (percentage_monotone_in_bytes 1000 400 1000) as (Hu & _).
  - reflexivity.
  - simpl. lia.
  - exact Hu.
Defined.

(** X8. The division by the size is not guarded: against a size of 0
    the three computations return the string "NaN" for 0 bytes and
    "Infinity" for any more, a percentage without a value, which the
    page does not take for a terminal one. *)
Theorem percentage_of_empty_transfer (b : N) :
  let expected := if (b =? 0)%N then StrNaN else StrInfinity in
  uploadPercentage b 0 = expected /\
  restorePercentage b 0 = expected /\
  recoveryPercentage b 0 = expected /\
  pctValue expected = None /\ isTerminal expected = false.
Proof.
  unfold uploadPercentage, restorePercentage, recoveryPercentage, jsDiv.
  destruct (b =? 0)%N; repeat split.
Qed.

(** ** A backup that reads its whole dump *)

Lemma runningTotals_last (chunks : list N) : forall bytes,
  last (runningTotals bytes chunks)
  = match chunks with [] => None | _ => Some (bytes + totalBytes chunks)%N end.
Proof.
  induction chunks as [|c chunks IH]; intros bytes; [reflexivity|].
  change (runningTotals bytes (c :: chunks))
    with ((bytes + c)%N :: runningTotals (bytes + c)%N chunks).
  rewrite last_cons, IH. destruct chunks as [|c' chunks].
  - simpl. rewrite N.add_0_r. reflexivity.
  - change (totalBytes (c :: c' :: chunks)) with (c + totalBytes (c' :: chunks))%N.
    rewrite N.add_assoc. reflexivity.
Qed.

Lemma chunkEvents_last msg pct size chunks :
  (0 < totalBytes chunks)%N ->
  exists before,
    chunkEvents msg pct size 0 chunks
    = (before ++ [mkEvent msg (pct (totalBytes chunks) size)])%list.
Proof.
  intros Hpos. unfold chunkEvents.
  pose proof (runningTotals_last chunks 0%N) as Hlast.
  destruct chunks as [|c chunks]; [simpl in Hpos; lia|].
  rewrite N.add_0_l in Hlast.
  destruct (runningTotals 0 (c :: chunks)) as [|t ts _] using rev_ind;
    [discriminate Hlast|].
  rewrite last_snoc in Hlast. injection Hlast as ->.
  rewrite map_app. eexists. reflexivity.
Qed.

(** X9. An observed backup of a dump that is not empty, whose chunks
    add up to the size of the dump and whose upload and cleanup
    succeed, emits 0, then 10, and ends with the per-chunk string
    "100.00" followed by the number 100; the temp file is gone and the
    run returns true. *)
Theorem whole_dump_backup_progress (env : BackupEnv) (w : World) (size : N) :
  pgDump env = Dumped size -> cosUpload env = Resolved tt ->
  backupUnlinkFault env = None ->
  (0 < size)%N -> totalBytes (uploadChunks env) = size ->
  let run := performBackup (Some io) env in
  resultOf run w = Normal true /\
  [mkEvent "Starting backup..." (Num 0); mkEvent "Uploading backup..." (Num 10)]
    `prefix_of` eventsOf run w /\
  [mkEvent "Uploading..." (Fixed2 10000); mkEvent "Backup completed" (Num 100)]
    `suffix_of` eventsOf run w /\
  tempDir (worldAfter run w) !! tempPath (backupFilename (wallClock w (clockReads w))) = None.
Proof.
  destruct env as [dump chunks up fault].
  cbn [pgDump cosUpload backupUnlinkFault uploadChunks].
  intros -> -> -> Hpos Htotal.
  destruct (chunkEvents_last "Uploading..." uploadPercentage size chunks) as [before Hev];
    [lia|].
  rewrite Htotal in Hev.
  destruct (percentage_at_range_ends size Hpos) as ((_ & Hfull) & _).
  rewrite Hfull in Hev.
  simulate_files. rewrite Hev.
  split; [reflexivity|]. split; [eexists; reflexivity|]. split; [|reflexivity].
  exists ([mkEvent "Starting backup..." (Num 0); mkEvent "Uploading backup..." (Num 10)]
            ++ before)%list.
  rewrite <- !app_assoc. reflexivity.
Qed.

Lemma whole_dump_backup_progress_witness :
  [mkEvent "Uploading..." (Fixed2 10000); mkEvent "Backup completed" (Num 100)]
    `suffix_of` eventsOf (performBackup (Some io) sampleBackup) sampleWorld.
Proof.
  destruct (whole_dump_backup_progress sampleBackup sampleWorld 1000) as (_ & _ & H & _);
    try reflexivity.
  exact H.
Defined.

(** ** The log view over any log file *)

Lemma splitLines_nonempty (s : string) : splitLines s <> [].
Proof.
  destruct s as [|c s]; [discriminate|]. cbn [splitLines].
  destruct (Ascii.eqb c "010"); [discriminate|].
  destruct (splitLines s); discriminate.
Qed.

Lemma splitLines_segment (l rest : string) :
  splitLines (l ++ String "010" rest) = (splitLines l ++ splitLines rest)%list.
Proof.
  induction l as [|c l IH]; [reflexivity|].
  rewrite append_cons. cbn [splitLines]. rewrite IH.
  destruct (Ascii.eqb c "010"); [reflexivity|].
  pose proof (splitLines_nonempty l) as Hne.
  destruct (splitLines l) as [|x xs]; [congruence | reflexivity].
Qed.

Lemma splitLines_appendLines_any (lines : list string) :
  splitLines (appendLines lines) = (concat (map splitLines lines) ++ [EmptyString])%list.
Proof.
  induction lines as [|l lines IH]; [reflexivity|].
  cbn [appendLines map concat]. rewrite splitLines_segment, IH, app_assoc. reflexivity.
Qed.

Lemma splitLines_noNewline (l : string) : noNewline l = true -> splitLines l = [l].
Proof.
  induction l as [|c l IH]; [reflexivity|].
  simpl. intros H. apply andb_true_iff in H as [Hc Hl].
  apply negb_true_iff in Hc. rewrite Hc, (IH Hl). reflexivity.
Qed.

(** X10. Whatever was logged, the view shows physical lines: it is the
    first 50 of the reversed non-empty lines that the logged messages
    split into. A message that holds a line feed (the text of a failed
    command) therefore shows as two entries, its second line above its
    first. *)
Theorem log_view_of_any_log (lines : list string) :
  readLogs (appendLines lines)
    = firstn 50 (rev (List.filter nonEmpty (concat (map splitLines lines)))) /\
  (forall a b,
     noNewline a = true -> noNewline b = true -> nonEmpty a = true -> nonEmpty b = true ->
     readLogs (appendLines [a ++ String "010" b]) = [b; a]).
Proof.
  assert (Hview : forall ls, readLogs (appendLines ls)
            = firstn 50 (rev (List.filter nonEmpty (concat (map splitLines ls))))).
  { intros ls. unfold readLogs. rewrite splitLines_appendLines_any, List.filter_app.
    cbn [List.filter nonEmpty]. rewrite app_nil_r. reflexivity. }
  split; [apply Hview|].
  intros a b Ha Hb Hna Hnb. rewrite Hview. cbn [map concat].
  rewrite splitLines_segment, (splitLines_noNewline a Ha), (splitLines_noNewline b Hb).
  cbn [app List.filter]. rewrite Hna, Hnb. reflexivity.
Qed.

Lemma log_view_of_any_log_witness :
  readLogs (appendLines ["[t1] Backup failed: Command failed: pg_dump"
                           ++ String "010" "pg_dump: error: connection refused"])
  = ["pg_dump: error: connection refused"; "[t1] Backup failed: Command failed: pg_dump"].
Proof.
  destruct (log_view_of_any_log []) as (_ & H).
  apply H; reflexivity.
Defined.

(** ** The dashboard route *)










(** ** The notifier's callbacks *)

Lemma mailCallback_step (d : option Error) (w : World) :
  exists a,
    entryNotify a = false /\
    mailCallback d w
    = (Normal tt,
       mkWorld (wallClock w) (epochClock w) (S (clockReads w))
               (auditLog w ++ [a]) (channel w) (tempDir w)).
Proof. destruct d; eexists; (split; [|reflexivity]); reflexivity. Qed.

Lemma mailCallbacks_cons d deliveries w w1 :
  mailCallback d w = (Normal tt, w1) ->
  mailCallbacks (d :: deliveries) w = mailCallbacks deliveries w1.
Proof. intros H. cbn [mailCallbacks]. unfold bind. rewrite H. reflexivity. Qed.

Lemma mailCallbacks_run (deliveries : list (option Error)) : forall w,
  exists written,
    resultOf (mailCallbacks deliveries) w = Normal tt /\
    auditLog (worldAfter (mailCallbacks deliveries) w) = (auditLog w ++ written)%list /\
    length written = length deliveries /\
    Forall (fun a => entryNotify a = false) written /\
    channel (worldAfter (mailCallbacks deliveries) w) = channel w /\
    tempDir (worldAfter (mailCallbacks deliveries) w) = tempDir w.
Proof.
  induction deliveries as [|d deliveries IH]; intros w.
  - exists []. cbn. rewrite app_nil_r. repeat split. constructor.
  - destruct (mailCallback_step d w) as (a & Ha & Hstep).
    destruct (IH (mkWorld (wallClock w) (epochClock w) (S (clockReads w))
                          (auditLog w ++ [a]) (channel w) (tempDir w)))
      as (written & Hres & Hlog & Hlen & Hno & Hch & Htmp).
    exists (a :: written).
    unfold resultOf, worldAfter in *.
    rewrite (mailCallbacks_cons d deliveries w _ Hstep).
    rewrite Hres, Hlog, Hch, Htmp. cbn [auditLog channel tempDir length].
    rewrite <- app_assoc.
    repeat split; [congruence | constructor; assumption].
Qed.

(** X13. The callbacks of the mail transport only log: whatever the
    deliveries did, each writes one audit entry that is not escalated,
    so a failed delivery is never notified again; they emit no progress
    event, touch no temp file and never throw. *)
Theorem mail_callbacks_only_log (deliveries : list (option Error)) (w : World) :
  resultOf (mailCallbacks deliveries) w = Normal tt /\
  length (entriesOf (mailCallbacks deliveries) w) = length deliveries /\
  notifierInbox (worldAfter (mailCallbacks deliveries) w) = notifierInbox w /\
  eventsOf (mailCallbacks deliveries) w = [] /\
  tempDir (worldAfter (mailCallbacks deliveries) w) = tempDir w.
Proof.
  destruct (mailCallbacks_run deliveries w) as (written & Hres & Hlog & Hlen & Hno & Hch & Htmp).
  unfold entriesOf, eventsOf, notifierInbox. rewrite Hlog, Hch, drop_app_length, drop_all.
  repeat split; try assumption.
  rewrite List.filter_app.
  assert (Hnone : List.filter entryNotify written = []).
  { clear -Hno. induction Hno as [|a l Ha _ IH]; [reflexivity|].
    cbn [List.filter]. rewrite Ha. exact IH. }
  rewrite Hnone, app_nil_r. reflexivity.
Qed.

(** ** The delete route *)

(** X14. POST /delete answers with the redirect and escalates
    "Backup deleted successfully" when the store acknowledges, and
    answers 500 with a generic body and escalates the store's error
    when it does not (a missing key included). Either way it emits no
    progress event. *)
Theorem delete_route (filename : string) (w : World) :
  (resultOf (postDelete filename (Resolved tt)) w = Normal (Redirect "/") /\
   map (fun a => (entryMessage a, entryNotify a))
       (entriesOf (postDelete filename (Resolved tt)) w)
     = [("Deleting backup: " ++ filename, false);
        ("Backup deleted successfully: " ++ filename, true)]) /\
  (forall e,
     resultOf (postDelete filename (Rejected e)) w = Normal (StatusSend 500 "Delete failed") /\
     map (fun a => (entryMessage a, entryNotify a))
         (entriesOf (postDelete filename (Rejected e)) w)
       = [("Deleting backup: " ++ filename, false); ("Delete failed: " ++ e, true)]) /\
  (forall outcome, eventsOf (postDelete filename outcome) w = []).
Proof.
  split; [|split].
  - simulate. split; reflexivity.
  - intros e. simulate. split; reflexivity.
  - intros outcome. simulate; apply drop_all.
Qed.

(** ** The authentication middleware *)

Lemma strictEq_true (s : string) (v : option string) : strictEq s v = true <-> v = Some s.
Proof.
  destruct v as [t|]; simpl; [|split; discriminate].
  rewrite String.eqb_eq. split; [intros ->; reflexivity | intros H; injection H; auto].
Qed.

(** X15. The route behind the middleware runs exactly when the request
    carries credentials and both the user name and the password equal
    the configured ones; a variable that is not set matches nothing.
    Every other request gets the 401 challenge, and all it leaves
    behind is one audit entry "Authentication failed": the route does
    not run, whatever it is. *)
Theorem authentication_gate (user : option Credentials) (ADMIN_USER ADMIN_PASS : option string)
    (next : Run Response) (w : World) :
  let admitted :=
    exists u, user = Some u /\ ADMIN_USER = Some (name u) /\ ADMIN_PASS = Some (pass u) in
  (forall u,
     user = Some u -> ADMIN_USER = Some (name u) -> ADMIN_PASS = Some (pass u) ->
     let w1 := worldAfter (log ("Authentication successful for user: " ++ name u) false) w in
     resultOf (authenticate user ADMIN_USER ADMIN_PASS next) w
       = match resultOf next w1 with
         | Normal res => Normal (Routed res)
         | Throw e => Throw e
         end /\
     worldAfter (authenticate user ADMIN_USER ADMIN_PASS next) w = worldAfter next w1 /\
     map (fun a => (entryMessage a, entryNotify a))
         (entriesOf (log ("Authentication successful for user: " ++ name u) false) w)
       = [("Authentication successful for user: " ++ name u, false)]) /\
  (~ admitted ->
   resultOf (authenticate user ADMIN_USER ADMIN_PASS next) w
     = Normal (Challenge basicRealm 401 "Authentication required") /\
   worldAfter (authenticate user ADMIN_USER ADMIN_PASS next) w
     = worldAfter (log "Authentication failed" false) w /\
   map (fun a => (entryMessage a, entryNotify a))
       (entriesOf (authenticate user ADMIN_USER ADMIN_PASS next) w)
     = [("Authentication failed", false)] /\
   eventsOf (authenticate user ADMIN_USER ADMIN_PASS next) w = [] /\
   tempDir (worldAfter (authenticate user ADMIN_USER ADMIN_PASS next) w) = tempDir w).
Proof.
  cbv zeta. split.
  - intros u -> -> ->. cbv zeta.
    unfold authenticate, strictEq. rewrite !String.eqb_refl. cbn [andb].
    lazy beta iota zeta delta
      [resultOf worldAfter entriesOf bind log newDate appendEntry ret].
    cbn [fst snd auditLog]. rewrite drop_app_length.
    destruct (next _) as [[res|e] w']; repeat split.
  - intros Hno.
    assert (Hreject : authenticate user ADMIN_USER ADMIN_PASS next
                      = (log "Authentication failed" false ;;
                         ret (Challenge basicRealm 401 "Authentication required"))).
    { unfold authenticate. destruct user as [u|]; [|reflexivity].
      destruct (strictEq (name u) ADMIN_USER) eqn:Hu; [|reflexivity].
      destruct (strictEq (pass u) ADMIN_PASS) eqn:Hp; [|reflexivity].
      exfalso. apply Hno. exists u. rewrite strictEq_true in Hu, Hp. auto. }
    rewrite Hreject.
    lazy beta iota zeta delta
      [resultOf worldAfter entriesOf eventsOf bind log newDate appendEntry ret].
    cbn [fst snd auditLog channel tempDir].
    rewrite drop_app_length, drop_all. repeat split.
Qed.

Lemma authentication_gate_witness :
  resultOf (authenticate (Some (mkCredentials "admin" "guess")) (Some "admin") (Some "secret")
              (postDelete "backup.sql" (Resolved tt))) sampleWorld
  = Normal (Challenge basicRealm 401 "Authentication required").
Proof.
  destruct (authentication_gate (Some (mkCredentials "admin" "guess")) (Some "admin")
              (Some "secret") (postDelete "backup.sql" (Resolved tt)) sampleWorld)
    as (_ & Hreject).
  destruct Hreject as (H & _); [|exact H].
  intros (u & Hu & _ & Hp). injection Hu as <-. discriminate Hp.
Defined.

(** ** The page and the events of a run *)








(** ** How many notifications a run sends *)




(** X18. When [unlinkSync] throws after a backup was uploaded or a
    database was restored, the temp file it should have removed is
    still in the temp directory, with the size of the dump or of the
    download. *)
Theorem failed_deletion_keeps_temp_file (w : World) (e : Error) :
  (forall socket env size,
     pgDump env = Dumped size -> backupDeletionFails env e ->
     tempDir (worldAfter (performBackup socket env) w)
       !! tempPath (backupFilename (wallClock w (clockReads w))) = Some size) /\
  (forall filename env,
     restoreDeletionFails env e ->
     tempDir (worldAfter (postRestore filename env) w) !! tempPath filename
       = Some (totalBytes (downloadChunks env))).
Proof.
  split.
  - intros socket [dump chunks up fault] size. unfold backupDeletionFails.
    cbn [pgDump cosUpload backupUnlinkFault]. intros -> (_ & -> & ->).
    simulate_files; reflexivity.
  - intros filename [head chunks wend sql fault]. unfold restoreDeletionFails.
    cbn [headObject writeEnd psql restoreUnlinkFault downloadChunks].
    intros ([size ->] & -> & -> & ->). simulate_files; reflexivity.
Qed.

Lemma failed_deletion_keeps_temp_file_witness :
  tempDir (worldAfter (postRestore "backup.sql"
                         (mkRestoreEnv (Resolved 1000%N) [400%N; 600%N] Finish (Resolved tt)
                                       (Some "EPERM")))
                      sampleWorld) !! "temp/backup.sql" = Some 1000%N.
Proof.
  destruct (failed_deletion_keeps_temp_file sampleWorld "EPERM") as (_ & Hr).
  apply (Hr "backup.sql" (mkRestoreEnv (Resolved 1000%N) [400%N; 600%N] Finish (Resolved tt)
                                       (Some "EPERM"))).
  unfold restoreDeletionFails; simpl. eauto.
Defined.
